(** * Pythva: a shallow embedding of the Python-to-Java-style renderers

    The development follows the layout of the repository:
    - [ast]        the part of Python's [ast] node classes the converters read;
    - [core]       [core.py], the basic renderer [JavaStyleConverter];
    - [mapper]     [mapper.py], the lookup tables [SyntaxMapper] and the
                   mapping-augmented renderer [EnhancedConverter];
    - [optimizer]  [optimizer.py], the conversion cache [ConversionCache].

    Python strings are modelled as byte strings (UTF-8), Python integers as
    [Z], Python lists as [list], exceptions as the [Raise] case of [result]. *)

From Stdlib Require Import ZArith Lia Ascii String.
From stdpp Require Import gmap strings list pretty sorting.

Open Scope string_scope.
Open Scope Z_scope.

(** ** Python runtime: exceptions, strings *)

Inductive exn :=
| SyntaxError (msg : string)
| IndexError (msg : string)
| KeyError (key : string).

Inductive result (A : Type) :=
| Ok (a : A)
| Raise (e : exn).
Arguments Ok {A} a.
Arguments Raise {A} e.

Definition bind {A B} (m : result A) (k : A → result B) : result B :=
  match m with
  | Ok a => k a
  | Raise e => Raise e
  end.

(** The double quote and the line feed, which have no escape in a literal. *)
Definition dq : string := String (ascii_of_nat 34) EmptyString.
Definition nl : string := String (ascii_of_nat 10) EmptyString.

(** [sep.join(l)] *)
Definition join (sep : string) (l : list string) : string := String.concat sep l.

(** [s * n]: the empty string when [n <= 0]. *)
Definition repeat_str (s : string) (n : Z) : string :=
  String.concat EmptyString (replicate (Z.to_nat n) s).

(** [c.isspace()] on the ASCII range: TAB, LF, VT, FF, CR, FS, GS, RS, US and
    the blank.  Python also strips the non-ASCII Unicode blanks; every line the
    converters build carries an ASCII symbol, so that part is not needed. *)
Definition isspace (c : ascii) : bool :=
  let n := nat_of_ascii c in
  ((9 <=? n) && (n <=? 13) || (28 <=? n) && (n <=? 32))%nat.

(** Truth value of [line.strip()]: some character is not white space. *)
Definition strip_nonempty (line : string) : bool :=
  existsb (λ c, negb (isspace c)) (list_ascii_of_string line).

(** [s.startswith(p)] *)
Definition startswith (s p : string) : bool := String.prefix p s.

(** [sub in s] *)
Fixpoint contains_str (sub s : string) : bool :=
  String.prefix sub s ||
  match s with
  | EmptyString => false
  | String _ s' => contains_str sub s'
  end.

(** ** The syntax tree ([ast] of the Python standard library)

    One type holds the nodes of all classes, as the visitors are applied to
    any of them.  Of a node the fields that the converters read are kept,
    and the keywords of a call; decorators, defaults, annotations of
    parameters, expression contexts and the like are left out.  [FunctionDef]
    keeps of its parameters the names in [node.args.args].  [Compare] keeps
    its [ops] and [comparators], which the parser always produces with the
    same length, as one list of pairs.  A node class without a constructor of
    its own is an [Other] node with its child nodes in field order. *)
Module ast.

Inductive constant :=
| CInt (n : Z)
| CBool (b : bool)
| CFloat (repr : string)
| CStr (s : string)
| CNone
| CEllipsis
| CBytes (repr : string)
| CComplex (repr : string).

Inductive operator :=
| Add | Sub | Mult | MatMult | Div | Mod | Pow
| LShift | RShift | BitOr | BitXor | BitAnd | FloorDiv.

Inductive cmpop :=
| Eq | NotEq | Lt | LtE | Gt | GtE | Is | IsNot | In | NotIn.

#[warnings="-register-all"]
Inductive node :=
| Module (body : list node)
| ClassDef (name : string) (bases : list node) (body : list node)
| FunctionDef (name : string) (args : list string) (returns : option node)
              (body : list node)
| Assign (targets : list node) (value : node)
| Return (value : option node)
| If (test : node) (body orelse : list node)
| For (target iter : node) (body orelse : list node)
| While (test : node) (body orelse : list node)
| Expr (value : node)
| Import (names : list string)
| ImportFrom (module : option string) (names : list string)
| Name (id : string)
| Constant (value : constant)
| List (elts : list node)
| Dict (keys : list (option node)) (values : list node)
| BinOp (left : node) (op : operator) (right : node)
| Compare (left : node) (rest : list (cmpop * node))
| Call (func : node) (args : list node) (keywords : list node)
| Attribute (value : node) (attr : string)
| JoinedStr (values : list node)
| FormattedValue (value : node)
| Other (cls : string) (children : list node).

(** [type(x).__name__] *)
Definition operator_name (op : operator) : string :=
  match op with
  | Add => "Add" | Sub => "Sub" | Mult => "Mult" | MatMult => "MatMult"
  | Div => "Div" | Mod => "Mod" | Pow => "Pow" | LShift => "LShift"
  | RShift => "RShift" | BitOr => "BitOr" | BitXor => "BitXor"
  | BitAnd => "BitAnd" | FloorDiv => "FloorDiv"
  end.

Definition cmpop_name (op : cmpop) : string :=
  match op with
  | Eq => "Eq" | NotEq => "NotEq" | Lt => "Lt" | LtE => "LtE" | Gt => "Gt"
  | GtE => "GtE" | Is => "Is" | IsNot => "IsNot" | In => "In"
  | NotIn => "NotIn"
  end.

Definition class_name (n : node) : string :=
  match n with
  | Module _ => "Module" | ClassDef _ _ _ => "ClassDef"
  | FunctionDef _ _ _ _ => "FunctionDef" | Assign _ _ => "Assign"
  | Return _ => "Return" | If _ _ _ => "If" | For _ _ _ _ => "For"
  | While _ _ _ => "While" | Expr _ => "Expr" | Import _ => "Import"
  | ImportFrom _ _ => "ImportFrom" | Name _ => "Name"
  | Constant _ => "Constant" | List _ => "List" | Dict _ _ => "Dict"
  | BinOp _ _ _ => "BinOp" | Compare _ _ => "Compare"
  | Call _ _ _ => "Call" | Attribute _ _ => "Attribute"
  | JoinedStr _ => "JoinedStr" | FormattedValue _ => "FormattedValue"
  | Other cls _ => cls
  end.

(** [str(x)] of an object without [__str__]: the default [repr], here
    without the address of the object. *)
Definition object_repr (cls : string) : string :=
  "<ast." +:+ cls +:+ " object>".

(** [str(node.value)] for the value of a [Constant].  For an integer
    this is the conversion within the limit that the interpreter sets on
    its digits (4300 by default); beyond the limit [str] raises
    [ValueError], which is not modelled. *)
Definition str_constant (c : constant) : string :=
  match c with
  | CInt n => pretty n
  | CBool true => "True"
  | CBool false => "False"
  | CFloat r => r
  | CStr s => s
  | CNone => "None"
  | CEllipsis => "Ellipsis"
  | CBytes r => r
  | CComplex r => r
  end.

(** [isinstance(v, int)]: [bool] is a subclass of [int]. *)
Definition isinstance_int (c : constant) : bool :=
  match c with CInt _ | CBool _ => true | _ => false end.
Definition isinstance_float (c : constant) : bool :=
  match c with CFloat _ => true | _ => false end.
Definition isinstance_str (c : constant) : bool :=
  match c with CStr _ => true | _ => false end.
Definition isinstance_bool (c : constant) : bool :=
  match c with CBool _ => true | _ => false end.

(** [isinstance(n, ast.Name)] *)
Definition isinstance_Name (n : node) : bool :=
  match n with Name _ => true | _ => false end.

(** [ast.iter_child_nodes]: the child nodes, in field order, of the fields
    that are kept.  On a tree without defaults, decorators, annotations of
    parameters, keywords of a class and format specifications these are
    all the child nodes under which a statement, a list display or a dict
    display can stand. *)
Definition iter_child_nodes (n : node) : list node :=
  match n with
  | Module body => body
  | ClassDef _ bases body => bases ++ body
  | FunctionDef _ _ returns body => body ++ option_list returns
  | Assign targets value => targets ++ [value]
  | Return value => option_list value
  | If test body orelse => test :: body ++ orelse
  | For target iter body orelse => target :: iter :: body ++ orelse
  | While test body orelse => test :: body ++ orelse
  | Expr value => [value]
  | Import _ | ImportFrom _ _ | Name _ | Constant _ => []
  | List elts => elts
  | Dict keys values => omap id keys ++ values
  | BinOp lhs _ rhs => [lhs; rhs]
  | Compare lhs rest => lhs :: map snd rest
  | Call func args keywords => func :: args ++ keywords
  | Attribute value _ => [value]
  | JoinedStr values => values
  | FormattedValue value => [value]
  | Other _ children => children
  end.

(** Number of nodes of a tree. *)
Fixpoint size (n : node) : nat :=
  let sizes := λ l, list_sum (map size l) in
  S match n with
    | Module body => sizes body
    | ClassDef _ bases body => sizes bases + sizes body
    | FunctionDef _ _ returns body =>
        sizes body + from_option size 0%nat returns
    | Assign targets value => sizes targets + size value
    | Return value => from_option size 0%nat value
    | If test body orelse => size test + sizes body + sizes orelse
    | For target iter body orelse =>
        size target + size iter + sizes body + sizes orelse
    | While test body orelse => size test + sizes body + sizes orelse
    | Expr value => size value
    | Import _ | ImportFrom _ _ | Name _ | Constant _ => 0
    | List elts => sizes elts
    | Dict keys values =>
        list_sum (map (from_option size 0%nat) keys) + sizes values
    | BinOp lhs _ rhs => size lhs + size rhs
    | Compare lhs rest =>
        size lhs + list_sum (map (λ '(_, c), size c) rest)
    | Call func args keywords => size func + sizes args + sizes keywords
    | Attribute value _ => size value
    | JoinedStr values => sizes values
    | FormattedValue value => size value
    | Other _ children => sizes children
    end%nat.

(** Number of nodes of the trees of a queue. *)
Definition total_size (l : list node) : nat := list_sum (map size l).

(** [ast.walk]: breadth first, from a queue that starts with the tree; a
    node is taken from the front and its children are added at the back.
    The number of nodes left to take bounds the loop. *)
Fixpoint walk_queue (fuel : nat) (todo : list node) : list node :=
  match fuel, todo with
  | S fuel, n :: todo => n :: walk_queue fuel (todo ++ iter_child_nodes n)
  | _, _ => []
  end.

Definition walk (tree : node) : list node := walk_queue (size tree) [tree].

End ast.

(** ** [core.py]: the basic renderer *)
Module core.

(** The attributes of a [JavaStyleConverter] object. *)
Record JavaStyleConverter := {
  indent_level : Z;
  lines : list string;
  class_stack : list string;
  in_method : bool
}.

Definition __init__ : JavaStyleConverter :=
  {| indent_level := 0; lines := []; class_stack := []; in_method := false |}.

(** A method that only updates [self]; it may raise. *)
Definition action : Type := JavaStyleConverter → result JavaStyleConverter.

Definition seq (a b : action) : action := λ self, bind (a self) b.
Declare Scope action_scope.
Delimit Scope action_scope with action.
Notation "a ;; b" := (seq a%action b%action)
  (at level 100, b at level 200, right associativity) : action_scope.
Local Open Scope action_scope.

Definition skip : action := Ok.

(** [for x in l: f(x)] *)
Section foreach.
Context {A : Type} (f : A → action).
Fixpoint foreach (l : list A) : action :=
  match l with
  | [] => skip
  | x :: r => f x ;; foreach r
  end.
End foreach.

Definition set_indent_level (f : Z → Z) : action := λ self,
  Ok {| indent_level := f (indent_level self); lines := lines self;
        class_stack := class_stack self; in_method := in_method self |}.

Definition set_in_method (b : bool) : action := λ self,
  Ok {| indent_level := indent_level self; lines := lines self;
        class_stack := class_stack self; in_method := b |}.

Definition lines_append (line : string) : action := λ self,
  Ok {| indent_level := indent_level self; lines := lines self ++ [line];
        class_stack := class_stack self; in_method := in_method self |}.

Definition class_stack_append (name : string) : action := λ self,
  Ok {| indent_level := indent_level self; lines := lines self;
        class_stack := class_stack self ++ [name];
        in_method := in_method self |}.

(** [self.class_stack.pop()] raises on the empty list. *)
Definition class_stack_pop : action := λ self,
  match class_stack self with
  | [] => Raise (IndexError "pop from empty list")
  | _ :: _ =>
      Ok {| indent_level := indent_level self; lines := lines self;
            class_stack := removelast (class_stack self);
            in_method := in_method self |}
  end.

Definition add_line (line : string) (indent : bool) : action := λ self,
  if indent && strip_nonempty line
  then lines_append (repeat_str "    " (indent_level self) +:+ line) self
  else lines_append line self.

Definition _get_binop (op : ast.operator) : string :=
  match op with
  | ast.Add => "+"
  | ast.Sub => "-"
  | ast.Mult => "*"
  | ast.Div => "/"
  | ast.Mod => "%"
  | _ => ast.object_repr (ast.operator_name op)
  end.

Definition _get_cmpop (op : ast.cmpop) : string :=
  match op with
  | ast.Eq => "=="
  | ast.NotEq => "!="
  | ast.Lt => "<"
  | ast.LtE => "<="
  | ast.Gt => ">"
  | ast.GtE => ">="
  | _ => ast.object_repr (ast.cmpop_name op)
  end.

(** [visit_JoinedStr], given the renderer of values. *)
Definition visit_JoinedStr (_get_value_code : ast.node → string)
    (values : list ast.node) : string :=
  let parts :=
    omap (λ value,
            match value with
            | ast.Constant v => Some (dq +:+ ast.str_constant v +:+ dq)
            | ast.FormattedValue inner => Some (_get_value_code inner)
            | _ => None
            end) values in
  join " + " parts.

(** [_get_call_code], given the renderer of values. *)
Definition _get_call_code (_get_value_code : ast.node → string)
    (func : ast.node) (args : list ast.node) : string :=
  let func_name := _get_value_code func in
  let args := map _get_value_code args in
  func_name +:+ "(" +:+ join ", " args +:+ ")".

Fixpoint _get_value_code (n : ast.node) : string :=
  match n with
  | ast.Name id => id
  | ast.Constant v =>
      if ast.isinstance_str v then dq +:+ ast.str_constant v +:+ dq
      else ast.str_constant v
  | ast.List elts =>
      let elements := map _get_value_code elts in
      "Arrays.asList(" +:+ join ", " elements +:+ ")"
  | ast.Dict keys values =>
      let keys := map (from_option _get_value_code "None") keys in
      let values := map _get_value_code values in
      let items := zip_with (λ k v, k +:+ ", " +:+ v) keys values in
      "Map.of(" +:+ join ", " items +:+ ")"
  | ast.BinOp lhs op rhs =>
      let l := _get_value_code lhs in
      let r := _get_value_code rhs in
      "(" +:+ l +:+ " " +:+ _get_binop op +:+ " " +:+ r +:+ ")"
  | ast.Compare lhs rest =>
      let l := _get_value_code lhs in
      match rest with
      | (op, comparator) :: _ =>
          "(" +:+ l +:+ " " +:+ _get_cmpop op +:+ " "
              +:+ _get_value_code comparator +:+ ")"
      | [] => ast.object_repr "Compare"
      end
  | ast.Call func args _ => _get_call_code _get_value_code func args
  | ast.Attribute value attr => _get_value_code value +:+ "." +:+ attr
  | ast.JoinedStr values => visit_JoinedStr _get_value_code values
  | _ => ast.object_repr (ast.class_name n)
  end.

Definition type_map : gmap string string :=
  list_to_map [("int", "int"); ("str", "String"); ("float", "double");
               ("bool", "boolean"); ("list", "List"); ("dict", "Map")].

Definition _get_type_annotation (n : ast.node) : string :=
  match n with
  | ast.Name id => default "Object" (type_map !! id)
  | _ => "Object"
  end.

Definition _infer_type (n : ast.node) : string :=
  match n with
  | ast.Constant v =>
      if ast.isinstance_int v then "int"
      else if ast.isinstance_float v then "double"
      else if ast.isinstance_str v then "String"
      else if ast.isinstance_bool v then "boolean"
      else match v with
           | ast.CBool true => "boolean"
           | ast.CBool false => "boolean"
           | _ => "Object"
           end
  | ast.List _ => "List<Object>"
  | ast.Dict _ _ => "Map<Object, Object>"
  | _ => "Object"
  end.

Section handlers.
(** [self.visit], for the calls on the items of a body. *)
Variable visit : ast.node → action.

Definition visit_ClassDef (name : string) (bases body : list ast.node)
  : action :=
  let class_name := name in
  let base_classes :=
    omap (λ base, match base with ast.Name id => Some id | _ => None end)
         bases in
  let extends :=
    match base_classes with
    | [] => EmptyString
    | _ => " extends " +:+ join ", " base_classes
    end in
  add_line ("public class " +:+ class_name +:+ extends +:+ " {") true ;;
  class_stack_append class_name ;;
  set_indent_level (λ i, i + 1) ;;
  foreach visit body ;;
  set_indent_level (λ i, i - 1) ;;
  add_line "}" true ;;
  class_stack_pop.

Definition visit_FunctionDef (name : string) (args : list string)
    (returns : option ast.node) (body : list ast.node) : action := λ self,
  let method_name := name in
  let method_name :=
    if String.eqb method_name "__init__"
    then default "Constructor" (last (class_stack self))
    else method_name in
  let returns := from_option _get_type_annotation "Object" returns in
  let params :=
    omap (λ arg,
            if bool_decide (arg ∈ ["self"]) then None
            else
              let param_type :=
                if String.eqb method_name "__init__" && String.eqb arg "name"
                then "String"
                else if bool_decide (arg ∈ ["a"; "b"; "x"; "y"]) then "int"
                else "Object" in
              Some (param_type +:+ " " +:+ arg)) args in
  let old_indent := indent_level self in
  (add_line ("public " +:+ returns +:+ " " +:+ method_name +:+ "("
               +:+ join ", " params +:+ ") {") true ;;
   set_in_method true ;;
   set_indent_level (λ i, i + 1) ;;
   foreach visit body ;;
   set_indent_level (λ _, old_indent) ;;
   add_line "}" true ;;
   set_in_method false) self.

Definition visit_Assign (targets : list ast.node) (value : ast.node)
  : action :=
  let targets :=
    omap (λ target,
            match target with ast.Name id => Some id | _ => None end)
         targets in
  match targets with
  | [] => skip
  | _ =>
      let var_type := _infer_type value in
      let var_names := join ", " targets in
      if (length targets =? 1)%nat
      then add_line (var_type +:+ " " +:+ var_names +:+ " = "
                       +:+ _get_value_code value +:+ ";") true
      else
        add_line (var_type +:+ " " +:+ var_names +:+ ";") true ;;
        foreach (λ target,
                   add_line (target +:+ " = " +:+ _get_value_code value
                               +:+ ";") true) targets
  end.

Definition visit_Return (value : option ast.node) : action :=
  match value with
  | Some v => add_line ("return " +:+ _get_value_code v +:+ ";") true
  | None => add_line "return;" true
  end.

Definition visit_If (test : ast.node) (body orelse : list ast.node)
  : action :=
  let condition := _get_value_code test in
  add_line ("if (" +:+ condition +:+ ") {") true ;;
  set_indent_level (λ i, i + 1) ;;
  foreach visit body ;;
  set_indent_level (λ i, i - 1) ;;
  add_line "}" true ;;
  match orelse with
  | [] => skip
  | _ =>
      add_line "else {" true ;;
      set_indent_level (λ i, i + 1) ;;
      foreach visit orelse ;;
      set_indent_level (λ i, i - 1) ;;
      add_line "}" true
  end.

Definition visit_For (target iter : ast.node) (body : list ast.node)
  : action :=
  let target := _get_value_code target in
  let iter_expr := _get_value_code iter in
  add_line ("for (" +:+ target +:+ " : " +:+ iter_expr +:+ ") {") true ;;
  set_indent_level (λ i, i + 1) ;;
  foreach visit body ;;
  set_indent_level (λ i, i - 1) ;;
  add_line "}" true.

Definition visit_While (test : ast.node) (body : list ast.node) : action :=
  let condition := _get_value_code test in
  add_line ("while (" +:+ condition +:+ ") {") true ;;
  set_indent_level (λ i, i + 1) ;;
  foreach visit body ;;
  set_indent_level (λ i, i - 1) ;;
  add_line "}" true.

Definition visit_Expr (value : ast.node) : action :=
  match value with
  | ast.Call func args _ =>
      let call_code := _get_call_code _get_value_code func args in
      add_line (call_code +:+ ";") true
  | ast.Constant (ast.CStr s) =>
      add_line ("System.out.println(" +:+ dq +:+ s +:+ dq +:+ ");") true
  | _ => skip
  end.
End handlers.

(** [NodeVisitor.visit]: the handler [visit_<class>] when the class has
    one, [generic_visit] (the children, in field order) otherwise.
    [visit_JoinedStr] and [visit_FormattedValue] only return text. *)
Fixpoint visit (n : ast.node) : action :=
  match n with
  | ast.ClassDef name bases body => visit_ClassDef visit name bases body
  | ast.FunctionDef name args returns body =>
      visit_FunctionDef visit name args returns body
  | ast.Assign targets value => visit_Assign targets value
  | ast.Return value => visit_Return value
  | ast.If test body orelse => visit_If visit test body orelse
  | ast.For target iter body _ => visit_For visit target iter body
  | ast.While test body _ => visit_While visit test body
  | ast.Expr value => visit_Expr value
  | ast.JoinedStr _ | ast.FormattedValue _ => skip
  | ast.Module body => foreach visit body
  | ast.Import _ | ast.ImportFrom _ _ | ast.Name _ | ast.Constant _ => skip
  | ast.List elts => foreach visit elts
  | ast.Dict keys values =>
      foreach (from_option visit skip) keys ;; foreach visit values
  | ast.BinOp lhs _ rhs => visit lhs ;; visit rhs
  | ast.Compare lhs rest => visit lhs ;; foreach (λ '(_, c), visit c) rest
  | ast.Call func args keywords =>
      visit func ;; foreach visit args ;; foreach visit keywords
  | ast.Attribute value _ => visit value
  | ast.Other _ children => foreach visit children
  end.

(** The [try] block of [convert], once [ast.parse] has returned [tree]. *)
Definition convert_tree (self : JavaStyleConverter) (tree : ast.node)
  : result string :=
  bind (visit tree self) (λ self,
    match class_stack self with
    | _ :: _ =>
        let package_lines := ["package pythva.generated;"; EmptyString] in
        Ok (join nl (package_lines ++ lines self)%list)
    | [] => Ok (join nl (lines self))
    end).

Section convert.
(** [ast.parse] of the standard library. *)
Variable ast_parse : string → result ast.node.

(** [try: ... except SyntaxError as e: ...]; any other exception goes
    on to the caller. *)
Definition convert (self : JavaStyleConverter) (code : string)
  : result string :=
  match bind (ast_parse code) (convert_tree self) with
  | Raise (SyntaxError e) => Ok ("// 语法错误: " +:+ e +:+ nl +:+ code)
  | returned => returned
  end.

Definition convert_python_to_java_style (code : string) : result string :=
  let converter := __init__ in
  convert converter code.
End convert.

End core.

(** ** [mapper.py]: the lookup tables and the mapping-augmented renderer *)
Module mapper.

(** [d[k]] on a dictionary of strings. *)
Definition getitem (d : gmap string string) (k : string) : result string :=
  match d !! k with
  | Some v => Ok v
  | None => Raise (KeyError k)
  end.

Module SyntaxMapper.

Definition TYPE_MAPPING : gmap string string :=
  list_to_map
    [("int", "int"); ("float", "double"); ("str", "String");
     ("bool", "boolean"); ("list", "List"); ("dict", "Map");
     ("tuple", "List"); ("set", "Set"); ("None", "null");
     ("True", "true"); ("False", "false")].

Definition FUNCTION_MAPPING : gmap string string :=
  list_to_map
    [("print", "System.out.println"); ("len", "Collection.size");
     ("range", "IntStream.range"); ("enumerate", "List.of");
     ("zip", "List.of"); ("sum", "Collection.sum");
     ("max", "Collections.max"); ("min", "Collections.min");
     ("abs", "Math.abs"); ("round", "Math.round")].

Definition MAGIC_METHODS : gmap string string :=
  list_to_map
    [("__init__", "constructor"); ("__str__", "toString");
     ("__repr__", "toString"); ("__len__", "size");
     ("__getitem__", "get"); ("__setitem__", "set");
     ("__iter__", "iterator"); ("__next__", "next");
     ("__eq__", "equals"); ("__lt__", "compareTo");
     ("__le__", "compareTo"); ("__gt__", "compareTo");
     ("__ge__", "compareTo"); ("__add__", "plus"); ("__sub__", "minus");
     ("__mul__", "multiply"); ("__truediv__", "divide")].

Definition map_type (python_type : string) : string :=
  default "Object" (TYPE_MAPPING !! python_type).

Definition map_function (func_name : string) : result string :=
  if bool_decide (func_name ∈ dom FUNCTION_MAPPING)
  then getitem FUNCTION_MAPPING func_name
  else Ok func_name.

Definition map_magic_method (magic_method : string) : string :=
  default magic_method (MAGIC_METHODS !! magic_method).

End SyntaxMapper.

(** The attributes of an [EnhancedConverter] object; [mapper] holds no
    data of its own. *)
Record EnhancedConverter := {
  imports : list string;
  lines : list string;
  indent_level : Z;
  in_class : bool;
  variables : gmap string string
}.

Definition __init__ : EnhancedConverter :=
  {| imports := []; lines := []; indent_level := 0; in_class := false;
     variables := ∅ |}.

(** A method that only updates [self]; none of them raises. *)
Definition update : Type := EnhancedConverter → EnhancedConverter.

Definition imports_append (line : string) : update := λ self,
  {| imports := imports self ++ [line]; lines := lines self;
     indent_level := indent_level self; in_class := in_class self;
     variables := variables self |}.

Definition lines_append (line : string) : update := λ self,
  {| imports := imports self; lines := lines self ++ [line];
     indent_level := indent_level self; in_class := in_class self;
     variables := variables self |}.

(** [for x in l: f(x)] *)
Definition foreach {A : Type} (f : A → update) (l : list A) : update :=
  λ self, fold_left (λ self x, f x self) l self.

Definition _collect_info (tree : ast.node) : update :=
  foreach (λ node,
             match node with
             | ast.List _ =>
                 λ self, imports_append "import java.util.ArrayList;"
                           (imports_append "import java.util.List;" self)
             | ast.Dict _ _ =>
                 λ self, imports_append "import java.util.HashMap;"
                           (imports_append "import java.util.Map;" self)
             | _ => id
             end) (ast.walk tree).

Definition add_line (line : string) (indent : bool) : update := λ self,
  if indent && strip_nonempty line
  then lines_append (repeat_str "    " (indent_level self) +:+ line) self
  else lines_append line self.

Definition visit_Import (names : list string) : update :=
  foreach (λ module_name,
             if startswith module_name "pythva"
             then add_line ("import " +:+ module_name +:+ ".*;") true
             else add_line ("// import " +:+ module_name
                              +:+ " (需要手动转换)") true) names.

Definition visit_ImportFrom (module : option string) (names : list string)
  : update :=
  match module with
  | None | Some EmptyString => id
  | Some module =>
      foreach (λ name,
                 if String.eqb module "typing" && String.eqb name "List"
                 then imports_append "import java.util.List;"
                 else if String.eqb module "typing" && String.eqb name "Dict"
                 then imports_append "import java.util.Map;"
                 else add_line ("// from " +:+ module +:+ " import " +:+ name
                                  +:+ " (需要手动转换)") true) names
  end.

Definition _get_binop (op : ast.operator) : string :=
  match op with
  | ast.Add => "+"
  | ast.Sub => "-"
  | ast.Mult => "*"
  | ast.Div => "/"
  | ast.Mod => "%"
  | ast.Pow => "**"
  | ast.LShift => "<<"
  | ast.RShift => ">>"
  | ast.BitOr => "|"
  | ast.BitXor => "^"
  | ast.BitAnd => "&"
  | ast.FloorDiv => "//"
  | ast.MatMult => ast.object_repr (ast.operator_name op)
  end.

Section handlers.
(** [self._get_value_code], for the calls on the parts of a node. *)
Variable _get_value_code : ast.node → string.

Definition visit_List (elts : list ast.node) : string :=
  match elts with
  | [] => "new ArrayList<>()"
  | _ =>
      let elements := map _get_value_code elts in
      "Arrays.asList(" +:+ join ", " elements +:+ ")"
  end.

Definition visit_Dict (keys : list (option ast.node))
    (values : list ast.node) : string :=
  match keys, values with
  | _ :: _, _ :: _ =>
      let key_codes := map (from_option _get_value_code "None") keys in
      let value_codes := map _get_value_code values in
      let items :=
        zip_with (λ key_code value_code,
                    key_code +:+ ", " +:+ value_code)
                 key_codes value_codes in
      "Map.of(" +:+ join ", " items +:+ ")"
  | _, _ => "new HashMap<>()"
  end.

Definition visit_Call (func : ast.node) (args : list ast.node) : string :=
  let func_name := _get_value_code func in
  let default_code :=
    let args := map _get_value_code args in
    func_name +:+ "(" +:+ join ", " args +:+ ")" in
  if String.eqb func_name "print" then
    let args := map _get_value_code args in
    "System.out.println(" +:+ join ", " args +:+ ")"
  else if String.eqb func_name "len" then
    match args with
    | arg0 :: _ =>
        let arg := _get_value_code arg0 in
        arg +:+ ".size()"
    | [] => default_code
    end
  else if String.eqb func_name "range" then
    match args with
    | [arg0] => "IntStream.range(0, " +:+ _get_value_code arg0 +:+ ")"
    | [arg0; arg1] =>
        let start := _get_value_code arg0 in
        let end_ := _get_value_code arg1 in
        "IntStream.range(" +:+ start +:+ ", " +:+ end_ +:+ ")"
    | _ => default_code
    end
  else default_code.
End handlers.

Fixpoint _get_value_code (n : ast.node) : string :=
  match n with
  | ast.Name id => id
  | ast.Constant v =>
      if ast.isinstance_str v then dq +:+ ast.str_constant v +:+ dq
      else ast.str_constant v
  | ast.List elts => visit_List _get_value_code elts
  | ast.Dict keys values => visit_Dict _get_value_code keys values
  | ast.Call func args _ => visit_Call _get_value_code func args
  | ast.BinOp lhs op rhs =>
      let l := _get_value_code lhs in
      let r := _get_value_code rhs in
      "(" +:+ l +:+ " " +:+ _get_binop op +:+ " " +:+ r +:+ ")"
  | _ => ast.object_repr (ast.class_name n)
  end.

(** [NodeVisitor.visit]: [visit_Import] and [visit_ImportFrom] update
    [self]; [visit_List], [visit_Dict] and [visit_Call] only return text;
    every other class goes through [generic_visit]. *)
Fixpoint visit (n : ast.node) : update :=
  match n with
  | ast.Import names => visit_Import names
  | ast.ImportFrom module names => visit_ImportFrom module names
  | ast.List _ | ast.Dict _ _ | ast.Call _ _ _ => id
  | ast.Module body => foreach visit body
  | ast.ClassDef _ bases body =>
      λ self, foreach visit body (foreach visit bases self)
  | ast.FunctionDef _ _ returns body =>
      λ self, from_option visit id returns (foreach visit body self)
  | ast.Assign targets value =>
      λ self, visit value (foreach visit targets self)
  | ast.Return value => from_option visit id value
  | ast.If test body orelse | ast.While test body orelse =>
      λ self, foreach visit orelse (foreach visit body (visit test self))
  | ast.For target iter body orelse =>
      λ self, foreach visit orelse
                (foreach visit body (visit iter (visit target self)))
  | ast.Expr value | ast.Attribute value _ | ast.FormattedValue value =>
      visit value
  | ast.Name _ | ast.Constant _ => id
  | ast.BinOp lhs _ rhs => λ self, visit rhs (visit lhs self)
  | ast.Compare lhs rest =>
      λ self, foreach (λ '(_, c), visit c) rest (visit lhs self)
  | ast.JoinedStr values => foreach visit values
  | ast.Other _ children => foreach visit children
  end.

(** The body of [convert], once [ast.parse] has returned [tree]. *)
Definition convert_tree (self : EnhancedConverter) (tree : ast.node)
  : string :=
  let self := _collect_info tree self in
  let self := visit tree self in
  let all_lines :=
    match imports self with
    | [] => lines self
    | _ => (imports self ++ [EmptyString] ++ lines self)%list
    end in
  join nl all_lines.

Section convert.
(** [ast.parse] of the standard library. *)
Variable ast_parse : string → result ast.node.

Definition convert (self : EnhancedConverter) (code : string)
  : result string :=
  bind (ast_parse code) (λ tree, Ok (convert_tree self tree)).

Definition convert_with_mapping (code : string) : result string :=
  let converter := __init__ in
  convert converter code.
End convert.

End mapper.

(** ** [optimizer.py]: the conversion cache *)
Module optimizer.

(** A Python [dict] with string keys: the items in insertion order, every
    key once. *)
Module dict.
Section dict.
Context {V : Type}.
Definition t : Type := list (string * V).

(** [k in d] *)
Definition contains (k : string) (d : t) : bool :=
  existsb (λ kv, String.eqb kv.1 k) d.

(** [d[k]] *)
Fixpoint get (k : string) (d : t) : option V :=
  match d with
  | [] => None
  | (k', v) :: d => if String.eqb k' k then Some v else get k d
  end.

(** [d[k] = v]: a present key keeps its place, a new one goes last. *)
Fixpoint set (k : string) (v : V) (d : t) : t :=
  match d with
  | [] => [(k, v)]
  | (k', v') :: d =>
      if String.eqb k' k then (k, v) :: d else (k', v') :: set k v d
  end.

(** [del d[k]] raises when the key is absent. *)
Fixpoint del (k : string) (d : t) : result t :=
  match d with
  | [] => Raise (KeyError k)
  | (k', v') :: d =>
      if String.eqb k' k then Ok d
      else bind (del k d) (λ d, Ok ((k', v') :: d))
  end.

(** [d.values()] *)
Definition values (d : t) : list V := map snd d.
Definition keys (d : t) : list string := map fst d.
End dict.
Arguments t V : clear implicits.
End dict.

Section ConversionCache.
(** Python floats, as far as the cache uses them: [==], [<] and [0.0]. *)
Context {float : Type}.
Variable float_eqb float_ltb : float → float → bool.
Variable float_zero : float.
(** [hashlib.md5(code.encode('utf-8')).hexdigest()] *)
Variable md5_hexdigest : string → string.

Record CacheEntry := {
  code_hash : string;
  converted_code : string;
  timestamp : float;
  access_count : Z;
  last_accessed : float
}.

Record ConversionCache := {
  max_size : Z;
  cache_file : option string;
  cache : dict.t CacheEntry
}.

Definition set_cache (self : ConversionCache) (c : dict.t CacheEntry)
  : ConversionCache :=
  {| max_size := max_size self; cache_file := cache_file self;
     cache := c |}.

(** A cache without a cache file: [_load_cache] returns at once. *)
Definition __init__ (max_size : Z) : ConversionCache :=
  {| max_size := max_size; cache_file := None; cache := [] |}.

Definition _get_code_hash (code : string) : string := md5_hexdigest code.

(** [get]; [now] is the value of [time.time()]. *)
Definition get (self : ConversionCache) (code : string) (now : float)
  : option string * ConversionCache :=
  let h := _get_code_hash code in
  match dict.get h (cache self) with
  | Some entry =>
      let entry :=
        {| code_hash := entry.(code_hash);
           converted_code := entry.(converted_code);
           timestamp := entry.(timestamp);
           access_count := entry.(access_count) + 1;
           last_accessed := now |} in
      (Some entry.(converted_code),
       set_cache self (dict.set h entry (cache self)))
  | None => (None, self)
  end.

(** The sort key [(e.last_accessed, -e.access_count)]. *)
Definition evict_key (e : CacheEntry) : float * Z :=
  (last_accessed e, - access_count e).

(** [a < b] on such tuples: the first components that differ decide. *)
Definition tuple_lt (a b : float * Z) : bool :=
  if negb (float_eqb a.1 b.1) then float_ltb a.1 b.1
  else if negb (a.2 =? b.2) then a.2 <? b.2
  else false.

(** [min(items, key=evict_key)] from the first item on: a later item
    replaces the current one only when its key is smaller. *)
Fixpoint min_from (best : CacheEntry) (items : list CacheEntry)
  : CacheEntry :=
  match items with
  | [] => best
  | item :: items =>
      min_from
        (if tuple_lt (evict_key item) (evict_key best) then item else best)
        items
  end.

Definition _evict_oldest (self : ConversionCache)
  : result ConversionCache :=
  match dict.values (cache self) with
  | [] => Ok self
  | first :: others =>
      let oldest_entry := min_from first others in
      bind (dict.del oldest_entry.(code_hash) (cache self))
           (λ c, Ok (set_cache self c))
  end.

(** [put]; [now] is the value of [time.time()]. *)
Definition put (self : ConversionCache) (code converted_code : string)
    (now : float) : result ConversionCache :=
  let h := _get_code_hash code in
  bind (if (max_size self <=? Z.of_nat (length (cache self)))
           && negb (dict.contains h (cache self))
        then _evict_oldest self
        else Ok self)
       (λ self,
          let entry :=
            {| code_hash := h; converted_code := converted_code;
               timestamp := now; access_count := 0;
               last_accessed := float_zero |} in
          Ok (set_cache self (dict.set h entry (cache self)))).

(** The lexicographic order that [tuple_lt] decides. *)
Definition key_lt (a b : float * Z) : Prop :=
  float_ltb a.1 b.1 = true ∨ (a.1 = b.1 ∧ a.2 < b.2).

(** [a] is not above [b]. *)
Definition key_le (a b : float * Z) : Prop := ¬ key_lt b a.

(** The invariant of the cache: every key once, and every entry filed
    under its own hash. *)
Definition cache_ok (self : ConversionCache) : Prop :=
  NoDup (dict.keys (cache self)) ∧
  Forall (λ kv, code_hash kv.2 = kv.1) (cache self).

End ConversionCache.

End optimizer.

(** ** Sample programs, as [ast.parse] returns them *)
Module programs.

(** The program of the end-to-end scenario,
<<
class HelloWorld:
    def __init__(self, name):
        self.name = name
    def greet(self):
        print(f"Hello, {self.name}!")
>>
    as [ast.parse] returns it. *)
Definition HelloWorld : ast.node :=
  ast.Module
    [ast.ClassDef "HelloWorld" []
       [ast.FunctionDef "__init__" ["self"; "name"] None
          [ast.Assign [ast.Attribute (ast.Name "self") "name"]
                      (ast.Name "name")];
        ast.FunctionDef "greet" ["self"] None
          [ast.Expr
             (ast.Call (ast.Name "print")
                [ast.JoinedStr
                   [ast.Constant (ast.CStr "Hello, ");
                    ast.FormattedValue
                      (ast.Attribute (ast.Name "self") "name");
                    ast.Constant (ast.CStr "!")]] [])]]].

(** A class [name] whose only method is the constructor
    [def __init__(self, name): self.name = name]. *)
Definition constructor_only_class (name : string) : ast.node :=
  ast.Module
    [ast.ClassDef name []
       [ast.FunctionDef "__init__" ["self"; "name"] None
          [ast.Assign [ast.Attribute (ast.Name "self") "name"]
                      (ast.Name "name")]]].

(** The program
<<
a = [1]
b = [2]
>>
    as [ast.parse] returns it. *)
Definition two_lists : ast.node :=
  ast.Module
    [ast.Assign [ast.Name "a"] (ast.List [ast.Constant (ast.CInt 1)]);
     ast.Assign [ast.Name "b"] (ast.List [ast.Constant (ast.CInt 2)])].

End programs.

(** ** Assertions on the render context of the basic renderer *)
Module core_logic.
Import core.

(** [hoare P a Q]: from a state in [P], [a] returns, in a state in [Q]. *)
Definition hoare (P : JavaStyleConverter → Prop) (a : action)
    (Q : JavaStyleConverter → Prop) : Prop :=
  ∀ self, P self → ∃ self', a self = Ok self' ∧ Q self'.

(** The structural part of the render context. *)
Definition at_frame (i : Z) (cs : list string) (self : JavaStyleConverter)
  : Prop :=
  indent_level self = i ∧ class_stack self = cs.

(** [a] returns and leaves the indent and the type stack as they were. *)
Definition restores (a : action) : Prop :=
  ∀ i cs, hoare (at_frame i cs) a (at_frame i cs).

End core_logic.

(** ** The rules of the mapping-augmented renderer, in words of the claims *)
Module mapper_spec.

(** The lines that the pre-scan adds for one node. *)
Definition required_imports (n : ast.node) : list string :=
  match n with
  | ast.List _ => ["import java.util.List;"; "import java.util.ArrayList;"]
  | ast.Dict _ _ => ["import java.util.Map;"; "import java.util.HashMap;"]
  | _ => []
  end.

(** The rule for calls in the words of C6, on the rendered callee and the
    rendered arguments: [len] is rewritten with exactly one argument. *)
Definition call_rule_as_stated (callee : string) (args : list string)
  : string :=
  let unchanged := callee +:+ "(" +:+ join ", " args +:+ ")" in
  if String.eqb callee "print"
  then "System.out.println(" +:+ join ", " args +:+ ")"
  else if String.eqb callee "len" then
    match args with
    | [x] => x +:+ ".size()"
    | _ => unchanged
    end
  else if String.eqb callee "range" then
    match args with
    | [x] => "IntStream.range(0, " +:+ x +:+ ")"
    | [x; y] => "IntStream.range(" +:+ x +:+ ", " +:+ y +:+ ")"
    | _ => unchanged
    end
  else unchanged.

(** The rule as amended: [len] is rewritten with one argument or more, on
    the first of them. *)
Definition call_rule (callee : string) (args : list string) : string :=
  let unchanged := callee +:+ "(" +:+ join ", " args +:+ ")" in
  if String.eqb callee "print"
  then "System.out.println(" +:+ join ", " args +:+ ")"
  else if String.eqb callee "len" then
    match args with
    | x :: _ => x +:+ ".size()"
    | [] => unchanged
    end
  else if String.eqb callee "range" then
    match args with
    | [x] => "IntStream.range(0, " +:+ x +:+ ")"
    | [x; y] => "IntStream.range(" +:+ x +:+ ", " +:+ y +:+ ")"
    | _ => unchanged
    end
  else unchanged.

End mapper_spec.


(** ** The shape of the lines of the basic renderer *)
Module core_lines.
Import core core_logic.

(** The last character of a line. *)
Fixpoint last_char (s : string) : option ascii :=
  match s with
  | EmptyString => None
  | String c s' =>
      match last_char s' with
      | Some d => Some d
      | None => Some c
      end
  end.

(** [+1] for a line that opens a block, [-1] for one that closes one. *)
Definition brace_delta (line : string) : Z :=
  match last_char line with
  | Some "{"%char => 1
  | Some "}"%char => -1
  | _ => 0
  end.

(** Blocks opened and not closed by a run of lines. *)
Definition balance (ls : list string) : Z :=
  foldr (λ line k, brace_delta line + k) 0 ls.

(** The line starts with the indentation of level [i]. *)
Definition indented (i : Z) (line : string) : bool :=
  String.prefix (repeat_str "    " i) line.

(** The render context at indent [i] and type stack [cs], after lines
    were added to [l0] that leave [k] blocks open and are indented to
    level [i0] at least. *)
Definition rframe (i0 i : Z) (cs l0 : list string) (k : Z)
    (self : JavaStyleConverter) : Prop :=
  indent_level self = i ∧ class_stack self = cs ∧
  ∃ added, lines self = (l0 ++ added)%list ∧ balance added = k ∧
           Forall (λ line, indented i0 line = true) added.

(** [a] returns, leaves indent and type stack as they were, and adds
    lines that close what they open and are indented to the level of the
    context at least. *)
Definition keeps (a : action) : Prop :=
  ∀ i0 i cs l0 k, i0 ≤ i →
    hoare (rframe i0 i cs l0 k) a (rframe i0 i cs l0 k).

End core_lines.


(** ** Predicates on whole trees *)
Module tree.

(** [p] holds of the node and of every node below it. *)
Fixpoint all_nodes (p : ast.node → bool) (n : ast.node) : bool :=
  let all := forallb (all_nodes p) in
  p n &&
  match n with
  | ast.Module body => all body
  | ast.ClassDef _ bases body => all bases && all body
  | ast.FunctionDef _ _ returns body =>
      all body && from_option (all_nodes p) true returns
  | ast.Assign targets value => all targets && all_nodes p value
  | ast.Return value => from_option (all_nodes p) true value
  | ast.If test body orelse | ast.While test body orelse =>
      all_nodes p test && all body && all orelse
  | ast.For target iter body orelse =>
      all_nodes p target && all_nodes p iter && all body && all orelse
  | ast.Expr value | ast.Attribute value _ | ast.FormattedValue value =>
      all_nodes p value
  | ast.Import _ | ast.ImportFrom _ _ | ast.Name _ | ast.Constant _ => true
  | ast.List elts => all elts
  | ast.Dict keys values =>
      forallb (from_option (all_nodes p) true) keys && all values
  | ast.BinOp lhs _ rhs => all_nodes p lhs && all_nodes p rhs
  | ast.Compare lhs rest =>
      all_nodes p lhs && forallb (λ '(_, c), all_nodes p c) rest
  | ast.Call func args keywords =>
      all_nodes p func && all args && all keywords
  | ast.JoinedStr values => all values
  | ast.Other _ children => all children
  end.

(** [isinstance(n, (ast.Import, ast.ImportFrom))] *)
Definition is_import (n : ast.node) : bool :=
  match n with
  | ast.Import _ | ast.ImportFrom _ _ => true
  | _ => false
  end.

(** The tree holds no import statement. *)
Definition import_free : ast.node → bool :=
  all_nodes (λ n, negb (is_import n)).

(** The expressions that both renderers have a rule of their own for:
    names, constants, the five arithmetic operators, and list and dict
    displays that are not empty. *)
Definition common_node (n : ast.node) : bool :=
  match n with
  | ast.Name _ | ast.Constant _ => true
  | ast.BinOp _ (ast.Add | ast.Sub | ast.Mult | ast.Div | ast.Mod) _ => true
  | ast.List (_ :: _) => true
  | ast.Dict (_ :: _) (_ :: _) => true
  | _ => false
  end.

Definition common : ast.node → bool := all_nodes common_node.

End tree.

(** ** [mapper.py]: the imports that [SyntaxMapper] derives *)
Module mapper_imports.

(** [SyntaxMapper.needs_import] *)
Definition import_required_types : gset string :=
  {[ "List"; "Map"; "Set"; "ArrayList"; "HashMap"; "HashSet";
     "Arrays"; "Collections"; "IntStream" ]}.

Definition needs_import (java_type : string) : bool :=
  bool_decide (java_type ∈ import_required_types).

(** The lines that one type name adds in [get_required_imports]. *)
Definition imports_of (type_name : string) : gset string :=
  if String.eqb type_name "List"
  then {[ "import java.util.List;"; "import java.util.ArrayList;" ]}
  else if String.eqb type_name "Map"
  then {[ "import java.util.Map;"; "import java.util.HashMap;" ]}
  else if String.eqb type_name "Set"
  then {[ "import java.util.Set;"; "import java.util.HashSet;" ]}
  else if String.eqb type_name "Arrays"
  then {[ "import java.util.Arrays;" ]}
  else if String.eqb type_name "Collections"
  then {[ "import java.util.Collections;" ]}
  else ∅.

(** [s1 <= s2] on strings. *)
Definition str_le (s1 s2 : string) : Prop := String.leb s1 s2 = true.

#[global] Instance str_le_dec : RelDecision str_le :=
  λ s1 s2, decide (String.leb s1 s2 = true).

(** [sorted(list(s))] for a set of strings. *)
Definition sorted (s : gset string) : list string :=
  merge_sort str_le (elements s).

(** [SyntaxMapper.get_required_imports] *)
Definition get_required_imports (code : string) : list string :=
  let imports :=
    foldl (λ imports type_name,
             if contains_str type_name code
             then imports ∪ imports_of type_name
             else imports)
          ∅ ["List"; "Map"; "Set"; "Arrays"; "Collections"] in
  sorted imports.

End mapper_imports.

(** ** Assertions on the converter of the mapping-augmented renderer *)
Module mapper_logic.
Import mapper.

(** The body of the loop of [_collect_info], for one node that [ast.walk]
    yields: a list display and a dict display add two lines each, and a
    name, like every other node, adds nothing. *)
Definition _collect_info_node (node : ast.node) : update :=
  match node with
  | ast.List _ =>
      λ self, imports_append "import java.util.ArrayList;"
                (imports_append "import java.util.List;" self)
  | ast.Dict _ _ =>
      λ self, imports_append "import java.util.HashMap;"
                (imports_append "import java.util.Map;" self)
  | _ => id
  end.

(** The lines that the pre-scan can add. *)
Definition prescan_lines : list string :=
  ["import java.util.List;"; "import java.util.ArrayList;";
   "import java.util.Map;"; "import java.util.HashMap;"].

(** From [self] to [self'] lines and imports were only added, and the
    other attributes are the same. *)
Definition grows (self self' : EnhancedConverter) : Prop :=
  indent_level self' = indent_level self ∧
  in_class self' = in_class self ∧
  variables self' = variables self ∧
  lines self `prefix_of` lines self' ∧
  imports self `prefix_of` imports self'.

End mapper_logic.


(** ** [optimizer.py]: the optimizer of rendered text and the converter
    with a cache *)
Module optimized.
Import optimizer.

Section CodeOptimizer.
(** [re.sub(pattern, repl, text)] of the standard library. *)
Variable re_sub : string → string → string → string.

Definition _remove_redundant_parentheses (code : string) : result string :=
  let patterns :=
    [("\(\(([^()]+)\)\)", "(\1)"); ("\(\(([^()]*)\)\)", "(\1)")] in
  Ok (foldl (λ code '(pattern, replacement),
               re_sub pattern replacement code) code patterns).

Definition _simplify_expressions (code : string) : result string :=
  Ok code.
Definition _optimize_string_concatenation (code : string)
  : result string := Ok code.
Definition _remove_unused_imports (code : string) : result string :=
  Ok code.

(** [self.optimization_rules], in the order of insertion. *)
Definition optimization_rules : dict.t (string → result string) :=
  [("remove_redundant_parentheses", _remove_redundant_parentheses);
   ("simplify_expressions", _simplify_expressions);
   ("optimize_string_concatenation", _optimize_string_concatenation);
   ("remove_unused_imports", _remove_unused_imports)].

(** [optimize]: no list of rules, or an empty one, stands for all
    rules; a name that is no rule is passed over, and so is a rule that
    raises. *)
Definition optimize (code : string) (enabled_rules : option (list string))
  : string :=
  let enabled_rules :=
    match enabled_rules with
    | None | Some [] => dict.keys optimization_rules
    | Some rules => rules
    end in
  foldl (λ optimized_code rule_name,
           match dict.get rule_name optimization_rules with
           | Some rule =>
               match rule optimized_code with
               | Ok code' => code'
               | Raise _ => optimized_code
               end
           | None => optimized_code
           end) code enabled_rules.
End CodeOptimizer.

Section OptimizedConverter.
Context {float : Type}.
Variable float_eqb float_ltb : float → float → bool.
Variable float_zero : float.
Variable md5_hexdigest : string → string.
Variable re_sub : string → string → string → string.
(** [convert_python_to_java_style] and [convert_with_mapping]. *)
Variable basic_converter enhanced_converter : string → result string.

(** The entry that [put] files for a text. *)
Definition new_entry (code converted_code : string) (now : float)
  : @CacheEntry float :=
  {| code_hash := md5_hexdigest code; converted_code := converted_code;
     timestamp := now; access_count := 0; last_accessed := float_zero |}.

(** The counters of the monitor; its clock readings are left out. *)
Record PerformanceMonitor := {
  cache_hits : Z;
  cache_misses : Z
}.

Definition record_cache_hit (m : PerformanceMonitor) : PerformanceMonitor :=
  {| cache_hits := cache_hits m + 1; cache_misses := cache_misses m |}.
Definition record_cache_miss (m : PerformanceMonitor)
  : PerformanceMonitor :=
  {| cache_hits := cache_hits m; cache_misses := cache_misses m + 1 |}.

(** The attributes of an [OptimizedConverter]; [cache] is [None] when
    the cache is not enabled. *)
Record OptimizedConverter := {
  cache_of : option (@ConversionCache float);
  monitor : PerformanceMonitor
}.

Definition __init__ (cache_enabled : bool) (max_cache_size : Z)
  : OptimizedConverter :=
  {| cache_of := if cache_enabled
                 then Some (optimizer.__init__ max_cache_size)
                 else None;
     monitor := {| cache_hits := 0; cache_misses := 0 |} |}.

(** [convert]; [now_get] and [now_put] are the values of [time.time()]
    in [get] and in [put].  The result goes with the converter as the
    call leaves it, also when the call raises. *)
Definition convert (self : OptimizedConverter) (code : string)
    (use_enhanced optimize_ : bool) (now_get now_put : float)
  : result string * OptimizedConverter :=
  let looked_up :=
    match cache_of self with
    | Some cache =>
        let '(cached_result, cache) := get md5_hexdigest cache code now_get in
        (cached_result, Some cache)
    | None => (None, None)
    end in
  match looked_up with
  | (Some (String c s), cache) =>
      (Ok (String c s),
       {| cache_of := cache; monitor := record_cache_hit (monitor self) |})
  | (_, cache) =>
      let monitor := record_cache_miss (monitor self) in
      match (if use_enhanced then enhanced_converter code
             else basic_converter code) with
      | Raise e => (Raise e, {| cache_of := cache; monitor := monitor |})
      | Ok converted_code =>
          let converted_code :=
            if optimize_ then optimize re_sub converted_code None
            else converted_code in
          match cache with
          | Some cache =>
              match put float_eqb float_ltb float_zero md5_hexdigest
                        cache code converted_code now_put with
              | Ok cache =>
                  (Ok converted_code,
                   {| cache_of := Some cache; monitor := monitor |})
              | Raise e =>
                  (Raise e, {| cache_of := Some cache; monitor := monitor |})
              end
          | None =>
              (Ok converted_code,
               {| cache_of := None; monitor := monitor |})
          end
      end
  end.
End OptimizedConverter.

(** A cache of capacity two with the clock in whole units and the hash
    taken as the identity: [h1] was read three times, [h2] never. *)
Definition sample_cache : @ConversionCache Z :=
  {| max_size := 2; cache_file := None;
     cache := [("h1", {| code_hash := "h1"; converted_code := "int a = 1;";
                         timestamp := 1; access_count := 3;
                         last_accessed := 5 |});
               ("h2", {| code_hash := "h2"; converted_code := "int b = 2;";
                         timestamp := 2; access_count := 0;
                         last_accessed := 0 |})] |}.

(** A converter over [sample_cache] whose basic variant returns a fixed
    text and whose enhanced variant raises; [re.sub] finds no match. *)
Definition sample_converter : @OptimizedConverter Z :=
  {| cache_of := Some sample_cache;
     monitor := {| cache_hits := 0; cache_misses := 0 |} |}.
Definition sample_re_sub (pattern repl s : string) : string := s.
Definition sample_basic (code : string) : result string :=
  Ok "int c = 3;".
Definition sample_enhanced (code : string) : result string :=
  Raise (SyntaxError "invalid syntax").

End optimized.


(** * Properties *)

(** ** The syntax tree *)
Module ast_facts.

Lemma total_size_app l1 l2 :
  ast.total_size (l1 ++ l2) = (ast.total_size l1 + ast.total_size l2)%nat.
Proof. unfold ast.total_size. by rewrite map_app, list_sum_app. Qed.

Lemma total_size_cons n l :
  ast.total_size (n :: l) = (ast.size n + ast.total_size l)%nat.
Proof. done. Qed.

Lemma total_size_option (o : option ast.node) :
  ast.total_size (option_list o) = from_option ast.size 0%nat o.
Proof. destruct o; unfold ast.total_size; simpl; lia. Qed.

Lemma total_size_keys (keys : list (option ast.node)) :
  ast.total_size (omap id keys) = list_sum (map (from_option ast.size 0%nat) keys).
Proof.
  unfold ast.total_size.
  induction keys as [|[k|] keys IH]; simpl;
    [done | f_equal; exact IH | exact IH].
Qed.

Lemma total_size_comparators (rest : list (ast.cmpop * ast.node)) :
  ast.total_size (map snd rest) = list_sum (map (λ '(_, c), ast.size c) rest).
Proof.
  unfold ast.total_size.
  induction rest as [|[op c] rest IH]; simpl; [done | f_equal; exact IH].
Qed.

(** A node counts for one more than its children. *)
Lemma size_children n :
  ast.size n = S (ast.total_size (ast.iter_child_nodes n)).
Proof.
  destruct n; simpl; f_equal;
    rewrite ?total_size_cons, ?total_size_app, ?total_size_option,
      ?total_size_keys, ?total_size_comparators;
    unfold ast.total_size; simpl; lia.
Qed.

Lemma size_child n c : c ∈ ast.iter_child_nodes n → (ast.size c < ast.size n)%nat.
Proof.
  rewrite (size_children n). generalize (ast.iter_child_nodes n).
  intros l Hc. induction Hc; rewrite total_size_cons; lia.
Qed.

(** Induction over the tree, with the hypothesis for every child. *)
Lemma node_children_ind (P : ast.node → Prop) :
  (∀ n, Forall P (ast.iter_child_nodes n) → P n) → ∀ n, P n.
Proof.
  intros step.
  assert (bounded : ∀ k n, (ast.size n < k)%nat → P n).
  { induction k as [|k IH]; intros n Hn; [lia|].
    apply step, Forall_forall. intros c Hc.
    apply IH. apply size_child in Hc. lia. }
  intros n. apply (bounded (S (ast.size n))). lia.
Qed.

(** The fuel of [walk] suffices: more of it changes nothing. *)
Lemma walk_queue_fuel fuel todo :
  (ast.total_size todo ≤ fuel)%nat →
  ast.walk_queue fuel todo = ast.walk_queue (ast.total_size todo) todo.
Proof.
  revert todo. induction fuel as [|fuel IH]; intros todo Hle.
  - destruct todo as [|n todo]; [done|].
    unfold ast.total_size in Hle; simpl in Hle.
    pose proof (size_children n). lia.
  - destruct todo as [|n todo]; [by destruct (ast.total_size [])|].
    assert (Hn : ast.total_size (n :: todo)
                 = S (ast.total_size (todo ++ ast.iter_child_nodes n))).
    { rewrite total_size_app. unfold ast.total_size at 1; simpl.
      rewrite size_children. unfold ast.total_size. lia. }
    rewrite Hn. simpl. f_equal. apply IH. lia.
Qed.

(** With that fuel every node of the queue is taken. *)
Lemma walk_queue_length todo :
  length (ast.walk_queue (ast.total_size todo) todo) = ast.total_size todo.
Proof.
  remember (ast.total_size todo) as fuel eqn:Hfuel. revert todo Hfuel.
  induction fuel as [|fuel IH]; intros todo Hfuel; [done|].
  destruct todo as [|n todo]; [done|]. simpl. f_equal.
  assert (Hn : fuel = ast.total_size (todo ++ ast.iter_child_nodes n)).
  { rewrite total_size_app. rewrite total_size_cons, size_children in Hfuel.
    lia. }
  by apply IH.
Qed.

Lemma walk_length tree : length (ast.walk tree) = ast.size tree.
Proof.
  unfold ast.walk.
  replace (ast.size tree) with (ast.total_size [tree])
    by (unfold ast.total_size; simpl; lia).
  apply walk_queue_length.
Qed.

End ast_facts.

(** ** The basic renderer *)
Module core_facts.
Import core core_logic.
Local Open Scope action_scope.

Lemma hoare_seq P Q R a b :
  hoare P a Q → hoare Q b R → hoare P (a ;; b) R.
Proof.
  intros Ha Hb self HP. destruct (Ha self HP) as (s1 & E1 & HQ).
  destruct (Hb s1 HQ) as (s2 & E2 & HR).
  exists s2. unfold seq. by rewrite E1.
Qed.

Lemma hoare_post P Q Q' a :
  hoare P a Q' → (∀ self, Q' self → Q self) → hoare P a Q.
Proof.
  intros Ha HQ self HP. destruct (Ha self HP) as (s1 & E1 & H1). eauto.
Qed.

Lemma hoare_skip P : hoare P skip P.
Proof. intros self HP. by exists self. Qed.

Lemma hoare_lines_append i cs line :
  hoare (at_frame i cs) (lines_append line) (at_frame i cs).
Proof. intros self HP. eexists; split; [reflexivity|exact HP]. Qed.

Lemma hoare_add_line i cs line indent :
  hoare (at_frame i cs) (add_line line indent) (at_frame i cs).
Proof.
  intros self HP. unfold add_line.
  destruct (indent && strip_nonempty line); by apply hoare_lines_append.
Qed.

Lemma hoare_set_indent_level i cs f :
  hoare (at_frame i cs) (set_indent_level f) (at_frame (f i) cs).
Proof.
  intros self [Hi Hcs]. eexists; split; [reflexivity|].
  split; simpl; congruence.
Qed.

Lemma hoare_set_in_method i cs b :
  hoare (at_frame i cs) (set_in_method b) (at_frame i cs).
Proof. intros self HP. eexists; split; [reflexivity|exact HP]. Qed.

Lemma hoare_class_stack_append i cs name :
  hoare (at_frame i cs) (class_stack_append name) (at_frame i (cs ++ [name])).
Proof.
  intros self [Hi Hcs]. eexists; split; [reflexivity|].
  split; simpl; congruence.
Qed.

Lemma hoare_class_stack_pop i cs name :
  hoare (at_frame i (cs ++ [name])) class_stack_pop (at_frame i cs).
Proof.
  intros self [Hi Hcs]. unfold class_stack_pop. rewrite Hcs.
  destruct (cs ++ [name])%list eqn:E; [by destruct cs|]. rewrite <- E.
  eexists; split; [reflexivity|]. split; simpl; [done|].
  apply removelast_last.
Qed.

Lemma hoare_foreach {A} (f : A → action) (l : list A) i cs :
  Forall (λ x, restores (f x)) l →
  hoare (at_frame i cs) (foreach f l) (at_frame i cs).
Proof.
  induction 1 as [|x l Hx _ IH]; simpl; [apply hoare_skip|].
  eapply hoare_seq; [apply Hx | apply IH].
Qed.

(** One step of a sequence, and the last one. *)
Ltac last_step :=
  first [ apply hoare_add_line | apply hoare_set_indent_level
        | apply hoare_set_in_method | apply hoare_class_stack_append
        | apply hoare_class_stack_pop | apply hoare_skip
        | apply hoare_foreach; eassumption ].
Ltac step := eapply hoare_seq; [last_step|].
Ltac steps := repeat step; last_step.

Lemma frame_eq i j cs self : i = j → at_frame i cs self → at_frame j cs self.
Proof. by intros ->. Qed.

Section handlers.
Variable visit : ast.node → action.

Lemma visit_ClassDef_restores name bases body :
  Forall (λ n, restores (visit n)) body →
  restores (visit_ClassDef visit name bases body).
Proof.
  intros Hbody i cs. unfold visit_ClassDef.
  eapply hoare_post; [steps|].
  intros self. simpl. apply frame_eq. lia.
Qed.

Lemma visit_FunctionDef_restores name args returns body :
  Forall (λ n, restores (visit n)) body →
  restores (visit_FunctionDef visit name args returns body).
Proof.
  intros Hbody i cs self Hself. unfold visit_FunctionDef.
  match goal with |- ∃ s, ?a self = _ ∧ _ =>
    assert (Ha : hoare (at_frame i cs) a (at_frame (indent_level self) cs))
  end.
  { steps. }
  destruct (Ha self Hself) as (s' & E & H'). exists s'. split; [done|].
  by destruct Hself as [<- _].
Qed.

Lemma visit_Assign_restores targets value :
  restores (visit_Assign targets value).
Proof.
  intros i cs. unfold visit_Assign.
  destruct (omap _ targets) as [|t ts] eqn:E; [apply hoare_skip|].
  destruct (_ =? _)%nat; [apply hoare_add_line|].
  step. apply hoare_foreach, Forall_forall.
  intros x _ j ds. apply hoare_add_line.
Qed.

Lemma visit_Return_restores value : restores (visit_Return value).
Proof. intros i cs. destruct value; apply hoare_add_line. Qed.

Lemma visit_If_restores test body orelse :
  Forall (λ n, restores (visit n)) body →
  Forall (λ n, restores (visit n)) orelse →
  restores (visit_If visit test body orelse).
Proof.
  intros Hbody Horelse i cs. unfold visit_If.
  destruct orelse; (eapply hoare_post; [steps|]);
    intros self; simpl; apply frame_eq; lia.
Qed.

Lemma visit_For_restores target iter body :
  Forall (λ n, restores (visit n)) body →
  restores (visit_For visit target iter body).
Proof.
  intros Hbody i cs. unfold visit_For.
  eapply hoare_post; [steps|].
  intros self. simpl. apply frame_eq. lia.
Qed.

Lemma visit_While_restores test body :
  Forall (λ n, restores (visit n)) body →
  restores (visit_While visit test body).
Proof.
  intros Hbody i cs. unfold visit_While.
  eapply hoare_post; [steps|].
  intros self. simpl. apply frame_eq. lia.
Qed.

Lemma visit_Expr_restores value : restores (visit_Expr value).
Proof.
  intros i cs. unfold visit_Expr.
  destruct value as [| | | | | | | | | | | |[]| | | | | | | | |];
    first [apply hoare_add_line | apply hoare_skip].
Qed.
End handlers.

Lemma seq_restores a b : restores a → restores b → restores (a ;; b).
Proof. intros Ha Hb i cs. eapply hoare_seq; [apply Ha | apply Hb]. Qed.

Lemma foreach_restores {A} (f : A → action) l :
  Forall (λ x, restores (f x)) l → restores (foreach f l).
Proof. intros Hl i cs. by apply hoare_foreach. Qed.

Lemma skip_restores : restores skip.
Proof. intros i cs. apply hoare_skip. Qed.

Lemma keys_restores (visit : ast.node → action) keys :
  Forall (λ n, restores (visit n)) (omap id keys) →
  Forall (λ k, restores (from_option visit skip k)) keys.
Proof.
  induction keys as [|[k|] keys IH]; simpl; intros H.
  - constructor.
  - apply Forall_cons in H as [? ?]. constructor; auto.
  - constructor; [apply skip_restores | auto].
Qed.

Lemma comparators_restores (visit : ast.node → action)
    (rest : list (ast.cmpop * ast.node)) :
  Forall (λ n, restores (visit n)) (map snd rest) →
  Forall (λ p, restores (let '(_, c) := p in visit c)) rest.
Proof.
  induction rest as [|[op c] rest IH]; simpl; intros H; [constructor|].
  apply Forall_cons in H as [? ?]. constructor; auto.
Qed.

(** Every node: the visit returns, with the indent and the stack of
    enclosing types as on entry. *)
Lemma visit_restores n : restores (visit n).
Proof.
  induction n as [n IH] using ast_facts.node_children_ind.
  destruct n; simpl in IH; simpl visit;
    repeat match goal with
      | H : Forall _ (_ :: _) |- _ => apply Forall_cons in H as [? ?]
      | H : Forall _ (_ ++ _) |- _ => apply Forall_app in H as [? ?]
      end;
    first
      [ apply visit_ClassDef_restores | apply visit_FunctionDef_restores
      | apply visit_Assign_restores | apply visit_Return_restores
      | apply visit_If_restores | apply visit_For_restores
      | apply visit_While_restores | apply visit_Expr_restores
      | apply skip_restores
      | repeat first [ apply seq_restores | apply foreach_restores ] ];
    auto using keys_restores, comparators_restores.
Qed.

End core_facts.

(** ** Claims on the basic renderer *)
Module core_claims.
Import core programs.

(** The basic half of C1: when [ast.parse] raises a syntax error, [convert]
    returns the marker, the error text, a line feed and the input itself. *)
Lemma convert_parse_failure (ast_parse : string → result ast.node)
    (self : JavaStyleConverter) (code e : string) :
  ast_parse code = Raise (SyntaxError e) →
  convert ast_parse self code = Ok ("// 语法错误: " +:+ e +:+ nl +:+ code).
Proof. intros H. unfold convert. by rewrite H. Qed.

(** Once the text is parsed, [convert] returns: no handler raises. *)
Lemma convert_tree_returns (self : JavaStyleConverter) (tree : ast.node) :
  ∃ out, convert_tree self tree = Ok out.
Proof.
  unfold convert_tree.
  destruct (core_facts.visit_restores tree (indent_level self)
              (class_stack self) self) as (self' & -> & _); [done|].
  simpl. destruct (class_stack self'); eauto.
Qed.

Lemma convert_returns (ast_parse : string → result ast.node)
    (self : JavaStyleConverter) (code : string) :
  (∃ tree, ast_parse code = Ok tree) ∨
  (∃ e, ast_parse code = Raise (SyntaxError e)) →
  ∃ out, convert ast_parse self code = Ok out.
Proof.
  unfold convert. intros [[tree ->]|[e ->]]; simpl; [|eauto].
  destruct (convert_tree_returns self tree) as [out ->]. eauto.
Qed.

(** C2, on the code: for every class name other than [__init__], the
    constructor of a class with the single parameter [name] is emitted under
    the name of the class, its parameter with the type [Object], not
    [String]: the test on [method_name] comes after its replacement. *)
Theorem constructor_name_parameter_is_Object (name : string) :
  name ≠ "__init__" →
  convert_tree __init__ (constructor_only_class name)
  = Ok (join nl ["public class " +:+ name +:+ " {";
                 "    public Object " +:+ name +:+ "(Object name) {";
                 "    }";
                 "}"]).
Proof.
  intros Hname%String.eqb_neq.
  vm_compute in Hname. vm_compute. rewrite Hname. reflexivity.
Qed.

Lemma constructor_name_parameter_is_Object_witness :
  "Person" ≠ "__init__" ∧
  convert_tree __init__ (constructor_only_class "Person")
  = Ok (join nl ["public class Person {";
                 "    public Object Person(Object name) {";
                 "    }";
                 "}"]).
Proof.
  split; [discriminate|].
  apply (constructor_name_parameter_is_Object "Person"). discriminate.
Defined.

(** The entries of the inference table that the code follows. *)
Lemma _infer_type_int n : _infer_type (ast.Constant (ast.CInt n)) = "int".
Proof. reflexivity. Qed.
Lemma _infer_type_float r :
  _infer_type (ast.Constant (ast.CFloat r)) = "double".
Proof. reflexivity. Qed.
Lemma _infer_type_str s :
  _infer_type (ast.Constant (ast.CStr s)) = "String".
Proof. reflexivity. Qed.

(** C3, on the code: a single-target assignment of a boolean literal is
    declared [int], not [boolean]: [isinstance(value, int)] is tested first
    and holds of [True] and [False]. *)
Theorem boolean_literal_is_declared_int (x : string) (b : bool) :
  convert_tree __init__
    (ast.Module [ast.Assign [ast.Name x] (ast.Constant (ast.CBool b))])
  = Ok ("int " +:+ x +:+ " = " +:+ (if b then "True" else "False") +:+ ";").
Proof. destruct b; vm_compute; reflexivity. Qed.

(** The scenarios [x = 10] and [a = b = compute()]. *)
Example assign_int :
  convert_tree __init__
    (ast.Module [ast.Assign [ast.Name "x"] (ast.Constant (ast.CInt 10))])
  = Ok "int x = 10;".
Proof. vm_compute. reflexivity. Qed.

Example assign_chained :
  convert_tree __init__
    (ast.Module [ast.Assign [ast.Name "a"; ast.Name "b"]
                   (ast.Call (ast.Name "compute") [] [])])
  = Ok (join nl ["Object a, b;"; "a = compute();"; "b = compute();"]).
Proof. vm_compute. reflexivity. Qed.

(** C4, on the code: the output of the basic variant for [HelloWorld] is
    exactly these lines.  It holds the class line and a constructor line
    that names the class, but the body line of [greet] is a call to
    [print] on the concatenation of the three parts, not a console-print
    call: [visit_Expr] hands every call to [_get_call_code], which copies
    the callee as it is. *)
Theorem HelloWorld_output :
  convert_tree __init__ HelloWorld
  = Ok (join nl
          ["public class HelloWorld {";
           "    public Object HelloWorld(Object name) {";
           "    }";
           "    public Object greet() {";
           "        print(" +:+ dq +:+ "Hello, " +:+ dq +:+ " + self.name + "
             +:+ dq +:+ "!" +:+ dq +:+ ");";
           "    }";
           "}"]).
Proof. vm_compute. reflexivity. Qed.

(** No line of that output is a console-print call. *)
Lemma HelloWorld_has_no_console_print :
  ∃ out, convert_tree __init__ HelloWorld = Ok out ∧
         contains_str "System.out.println" out = false.
Proof. eexists. split; vm_compute; reflexivity. Qed.

(** C9: for every node, the handler returns, and on return the indent and
    the stack of enclosing types are what they were on entry. *)
Theorem handlers_restore_indent_and_class_stack (n : ast.node)
    (self : JavaStyleConverter) :
  ∃ self', visit n self = Ok self' ∧
           indent_level self' = indent_level self ∧
           class_stack self' = class_stack self.
Proof.
  destruct (core_facts.visit_restores n (indent_level self)
              (class_stack self) self) as (self' & E & Hi & Hcs); [done|].
  by exists self'.
Qed.

(** C10: an assignment none of whose targets is a plain identifier leaves
    the render context, and so the output lines, as they were. *)
Theorem assignment_without_name_target_is_dropped
    (targets : list ast.node) (value : ast.node) (self : JavaStyleConverter) :
  Forall (λ t, ast.isinstance_Name t = false) targets →
  visit (ast.Assign targets value) self = Ok self.
Proof.
  intros Htargets. simpl. unfold visit_Assign.
  replace (omap _ targets) with (@nil string); [done|].
  induction Htargets as [|t ts Ht _ IH]; [done|].
  destruct t; try discriminate Ht; exact IH.
Qed.

Lemma assignment_without_name_target_is_dropped_witness :
  let self :=
    {| indent_level := 2; lines := ["public class P {"];
       class_stack := ["P"]; in_method := true |} in
  visit (ast.Assign [ast.Attribute (ast.Name "self") "name"] (ast.Name "name"))
        self = Ok self.
Proof.
  apply assignment_without_name_target_is_dropped.
  repeat constructor.
Defined.

End core_claims.

(** ** Claims on the mapping-augmented renderer and the tables *)
Module mapper_claims.
Import mapper mapper_spec programs.

(** C1, on the code: [EnhancedConverter.convert] has no handler around
    [ast.parse]; a syntax error leaves [convert] as an exception, where the
    basic [convert] returns the marked text ([convert_parse_failure]). *)
Theorem enhanced_convert_raises_on_parse_failure
    (ast_parse : string → result ast.node) (self : EnhancedConverter)
    (code e : string) :
  ast_parse code = Raise (SyntaxError e) →
  convert ast_parse self code = Raise (SyntaxError e).
Proof. intros H. unfold convert. by rewrite H. Qed.

Lemma enhanced_convert_raises_on_parse_failure_witness :
  let ast_parse : string → result ast.node :=
    λ _, Raise (SyntaxError "invalid syntax (<unknown>, line 1)") in
  convert_with_mapping ast_parse "def ("
  = Raise (SyntaxError "invalid syntax (<unknown>, line 1)").
Proof.
  intros ast_parse.
  apply (enhanced_convert_raises_on_parse_failure ast_parse __init__).
  reflexivity.
Defined.

(** The pre-scan appends, node after node in the order of [ast.walk]. *)
Lemma _collect_info_imports tree self :
  imports (_collect_info tree self)
  = (imports self ++ flat_map required_imports (ast.walk tree))%list.
Proof.
  unfold _collect_info, foreach. revert self.
  induction (ast.walk tree) as [|n l IH]; intros self; simpl.
  - by rewrite app_nil_r.
  - rewrite IH, app_assoc. f_equal.
    destruct n; simpl; rewrite ?app_nil_r, <- ?app_assoc; done.
Qed.

(** C5, on the code: with two list literals the pre-scan collects the same
    two lines twice, [List] before [ArrayList], and [convert] emits them so. *)
Theorem prescan_imports_repeated_and_unsorted :
  imports (_collect_info two_lists __init__)
  = ["import java.util.List;"; "import java.util.ArrayList;";
     "import java.util.List;"; "import java.util.ArrayList;"]
  ∧ ¬ NoDup (imports (_collect_info two_lists __init__))
  ∧ String.ltb "import java.util.ArrayList;" "import java.util.List;" = true
  ∧ convert_tree __init__ two_lists
    = join nl ["import java.util.List;"; "import java.util.ArrayList;";
               "import java.util.List;"; "import java.util.ArrayList;";
               EmptyString].
Proof.
  assert (E : imports (_collect_info two_lists __init__)
              = ["import java.util.List;"; "import java.util.ArrayList;";
                 "import java.util.List;"; "import java.util.ArrayList;"])
    by (vm_compute; reflexivity).
  split; [exact E|]. split; [|split; vm_compute; reflexivity].
  rewrite E. intros Hnd. apply NoDup_cons in Hnd as [Hnotin _].
  apply Hnotin. do 2 constructor.
Qed.

(** C6, as amended: every call node is rendered by [call_rule] from its
    rendered callee and its rendered positional arguments. *)
Theorem call_rendering (func : ast.node) (args keywords : list ast.node) :
  _get_value_code (ast.Call func args keywords)
  = call_rule (_get_value_code func) (map _get_value_code args).
Proof.
  change (_get_value_code (ast.Call func args keywords))
    with (visit_Call _get_value_code func args).
  unfold visit_Call, call_rule.
  destruct (String.eqb _ "print"); [done|].
  destruct (String.eqb _ "len"); [by destruct args|].
  destruct (String.eqb _ "range"); [|done].
  by destruct args as [|x [|y [|z args]]].
Qed.

(** C6, as stated, fails on [len(a, b)]: it is rendered [a.size()], not
    passed through as [len(a, b)]. *)
Lemma len_of_two_arguments_not_passed_through :
  let call := ast.Call (ast.Name "len") [ast.Name "a"; ast.Name "b"] [] in
  _get_value_code call = "a.size()" ∧
  call_rule_as_stated "len" ["a"; "b"] = "len(a, b)" ∧
  _get_value_code call ≠ call_rule_as_stated "len" ["a"; "b"].
Proof. repeat split; try (vm_compute; reflexivity). discriminate. Qed.

Import SyntaxMapper.

(** C7: the three lookups return for every string; a name absent from the
    table is mapped to [Object] by [map_type] and to itself by
    [map_function] and [map_magic_method]; a name in the table is mapped to
    its entry; equal inputs give equal outputs. *)
Theorem lookups_total_with_fallback (name : string) :
  (TYPE_MAPPING !! name = None → map_type name = "Object") ∧
  (FUNCTION_MAPPING !! name = None → map_function name = Ok name) ∧
  (MAGIC_METHODS !! name = None → map_magic_method name = name) ∧
  (∃ java, map_function name = Ok java) ∧
  (∀ v, TYPE_MAPPING !! name = Some v → map_type name = v) ∧
  (∀ v, FUNCTION_MAPPING !! name = Some v → map_function name = Ok v) ∧
  (∀ v, MAGIC_METHODS !! name = Some v → map_magic_method name = v) ∧
  (∀ name', name' = name →
     map_type name' = map_type name ∧
     map_function name' = map_function name ∧
     map_magic_method name' = map_magic_method name).
Proof.
  assert (Hfun : ∀ v, FUNCTION_MAPPING !! name = Some v →
                      map_function name = Ok v).
  { intros v Hv. unfold map_function, getitem.
    rewrite bool_decide_eq_true_2; [by rewrite Hv|].
    apply elem_of_dom. by exists v. }
  assert (Hnone : FUNCTION_MAPPING !! name = None →
                  map_function name = Ok name).
  { intros Hv. unfold map_function.
    rewrite bool_decide_eq_false_2; [done|].
    by apply not_elem_of_dom. }
  unfold map_type, map_magic_method.
  repeat split; try done; try (by intros ->); try (by intros v ->);
    try (by subst).
  destruct (FUNCTION_MAPPING !! name) eqn:E; eauto.
Qed.

Lemma lookups_total_with_fallback_witness :
  (TYPE_MAPPING !! "Decimal" = None ∧ map_type "Decimal" = "Object") ∧
  (FUNCTION_MAPPING !! "sorted" = None ∧ map_function "sorted" = Ok "sorted") ∧
  (MAGIC_METHODS !! "__hash__" = None ∧
   map_magic_method "__hash__" = "__hash__").
Proof.
  assert (H1 : TYPE_MAPPING !! "Decimal" = None) by (vm_compute; reflexivity).
  assert (H2 : FUNCTION_MAPPING !! "sorted" = None)
    by (vm_compute; reflexivity).
  assert (H3 : MAGIC_METHODS !! "__hash__" = None)
    by (vm_compute; reflexivity).
  split; [|split].
  - split; [exact H1|].
    exact (proj1 (lookups_total_with_fallback "Decimal") H1).
  - split; [exact H2|].
    exact (proj1 (proj2 (lookups_total_with_fallback "sorted")) H2).
  - split; [exact H3|].
    exact (proj1 (proj2 (proj2 (lookups_total_with_fallback "__hash__"))) H3).
Defined.

End mapper_claims.

(** ** The insertion-ordered dictionary *)
Module dict_facts.
Import optimizer.
Local Open Scope list_scope.

Section dict.
Context {V : Type}.
Implicit Types (d : dict.t V) (k : string) (v : V).

Lemma contains_false k d :
  dict.contains k d = false ↔ k ∉ dict.keys d.
Proof.
  unfold dict.contains, dict.keys.
  induction d as [|[k' v'] d IH]; simpl.
  - split; [intros _; apply not_elem_of_nil | done].
  - rewrite orb_false_iff, IH, not_elem_of_cons, String.eqb_neq.
    split; intros [? ?]; split; auto.
Qed.

(** A new key goes last. *)
Lemma set_fresh k v d :
  k ∉ dict.keys d → dict.set k v d = (d ++ [(k, v)])%list.
Proof.
  unfold dict.keys. induction d as [|[k' v'] d IH]; simpl; [done|].
  rewrite not_elem_of_cons. intros [Hne Hd].
  apply not_eq_sym, String.eqb_neq in Hne. rewrite Hne. by rewrite IH.
Qed.

(** Deleting the key of an item takes this item out, and only it. *)
Lemma del_split k v d1 d2 :
  k ∉ dict.keys d1 →
  dict.del k (d1 ++ (k, v) :: d2) = Ok (d1 ++ d2)%list.
Proof.
  unfold dict.keys. induction d1 as [|[k' v'] d1 IH]; simpl.
  - intros _. by rewrite String.eqb_refl.
  - rewrite not_elem_of_cons. intros [Hne Hd].
    apply not_eq_sym, String.eqb_neq in Hne. rewrite Hne.
    by rewrite IH.
Qed.
Lemma del_inv k d d' :
  dict.del k d = Ok d' →
  ∃ d1 v d2, d = d1 ++ (k, v) :: d2 ∧ d' = d1 ++ d2.
Proof.
  revert d'. induction d as [|[k' v'] d IH]; simpl; intros d' H; [done|].
  destruct (String.eqb_spec k' k) as [->|Hne].
  - injection H as <-. by exists [], v', d.
  - destruct (dict.del k d) as [d0|] eqn:E; simpl in H; [|done].
    injection H as <-.
    destruct (IH _ eq_refl) as (d1 & v & d2 & -> & ->).
    by exists ((k', v') :: d1), v, d2.
Qed.

(** Assignment keeps the keys of a present key and adds a new one last. *)
Lemma set_keys k v d :
  dict.keys (dict.set k v d)
  = if dict.contains k d then dict.keys d else dict.keys d ++ [k].
Proof.
  unfold dict.keys, dict.contains.
  induction d as [|[k' v'] d IH]; simpl; [done|].
  destruct (String.eqb_spec k' k) as [->|Hne]; simpl; [done|].
  rewrite IH. by destruct (existsb _ d).
Qed.

Lemma set_Forall (P : string * V → Prop) k v d :
  Forall P d → P (k, v) → Forall P (dict.set k v d).
Proof.
  intros Hd Hkv. induction Hd as [|[k' v'] d Hx Hd IH]; simpl.
  - by constructor.
  - destruct (String.eqb k' k); by constructor.
Qed.
End dict.
End dict_facts.

(** ** Claims on the conversion cache *)
Module optimizer_claims.
Import optimizer.
Local Open Scope list_scope.

Section eviction.
(** The values of Python floats other than NaN, compared by value: [==]
    decides equality and [<] is a strict total order. *)
Context {float : Type}.
Variable float_eqb float_ltb : float → float → bool.
Variable float_zero : float.
Variable md5_hexdigest : string → string.

Hypothesis float_eqb_eq : ∀ a b, float_eqb a b = true ↔ a = b.
Hypothesis float_ltb_irrefl : ∀ a, float_ltb a a = false.
Hypothesis float_ltb_trans : ∀ a b c,
  float_ltb a b = true → float_ltb b c = true → float_ltb a c = true.
Hypothesis float_ltb_total : ∀ a b,
  float_ltb a b = true ∨ a = b ∨ float_ltb b a = true.

Local Abbreviation CacheEntry := (@CacheEntry float).
Local Abbreviation ConversionCache := (@ConversionCache float).
Local Abbreviation tuple_lt := (tuple_lt float_eqb float_ltb).
Local Abbreviation min_from := (min_from float_eqb float_ltb).
Local Abbreviation put := (put float_eqb float_ltb float_zero md5_hexdigest).
Local Abbreviation key_lt := (key_lt float_ltb).
Local Abbreviation key_le := (key_le float_ltb).

Lemma tuple_lt_spec a b : tuple_lt a b = true ↔ key_lt a b.
Proof.
  unfold optimizer.tuple_lt, optimizer.key_lt.
  destruct (float_eqb a.1 b.1) eqn:E; simpl.
  - apply float_eqb_eq in E. rewrite E, float_ltb_irrefl.
    destruct (Z.eqb_spec a.2 b.2) as [E2|E2]; simpl.
    + split; [done|]. intros [?|[_ ?]]; [done|lia].
    + rewrite Z.ltb_lt. split; [auto|]. by intros [?|[_ ?]].
  - split; [auto|]. intros [?|[Heq _]]; [done|].
    apply float_eqb_eq in Heq. congruence.
Qed.

Lemma key_lt_trans a b c : key_lt a b → key_lt b c → key_lt a c.
Proof.
  unfold optimizer.key_lt. intros [H1|[E1 H1]] [H2|[E2 H2]].
  - left. eauto.
  - left. congruence.
  - left. congruence.
  - right. split; [congruence|lia].
Qed.

Lemma key_lt_irrefl a : ¬ key_lt a a.
Proof.
  unfold optimizer.key_lt. intros [H|[_ H]]; [|lia].
  by rewrite float_ltb_irrefl in H.
Qed.

(** Of two keys neither of which is below the other, both are equal. *)
Lemma key_lt_total a b : key_lt a b ∨ a = b ∨ key_lt b a.
Proof.
  unfold optimizer.key_lt. destruct a as [a1 a2], b as [b1 b2]; simpl.
  destruct (float_ltb_total a1 b1) as [H|[->|H]].
  - by left; left.
  - destruct (Z.lt_total a2 b2) as [H|[->|H]].
    + left; right; by split.
    + right; by left.
    + right; right; right; by split.
  - right; right; by left.
Qed.

Lemma key_le_trans a b c : key_le a b → key_le b c → key_le a c.
Proof.
  unfold optimizer.key_le. intros Hab Hbc Hca.
  destruct (key_lt_total b a) as [H|[->|H]]; [done|done|].
  apply Hbc. by apply key_lt_trans with a.
Qed.

Lemma key_le_refl a : key_le a a.
Proof. apply key_lt_irrefl. Qed.

Lemma min_from_step (best item : CacheEntry) :
  let best' :=
    if tuple_lt (evict_key item) (evict_key best) then item else best in
  key_le (evict_key best') (evict_key best) ∧
  key_le (evict_key best') (evict_key item).
Proof.
  simpl. destruct (tuple_lt _ _) eqn:E.
  - split; [|apply key_le_refl].
    apply tuple_lt_spec in E. intros H.
    by apply (key_lt_irrefl (evict_key best)), key_lt_trans with (evict_key item).
  - split; [apply key_le_refl|].
    intros H%tuple_lt_spec. congruence.
Qed.

(** [min] returns one of the items, and none has a smaller key. *)
Lemma min_from_elem best items : min_from best items ∈ best :: items.
Proof.
  revert best. induction items as [|item items IH]; intros best; simpl.
  - left.
  - specialize (IH (if tuple_lt (evict_key item) (evict_key best)
                    then item else best)).
    apply elem_of_cons in IH as [->|IH].
    + destruct (tuple_lt _ _); [right; left | left].
    + by do 2 right.
Qed.

Lemma min_from_le_best best items :
  key_le (evict_key (min_from best items)) (evict_key best).
Proof.
  revert best. induction items as [|item items IH]; intros best; simpl.
  - apply key_le_refl.
  - destruct (min_from_step best item) as [Hb _].
    eapply key_le_trans; [apply IH | exact Hb].
Qed.

Lemma min_from_least best items e :
  e ∈ best :: items →
  key_le (evict_key (min_from best items)) (evict_key e).
Proof.
  intros [->|He]%elem_of_cons; [apply min_from_le_best|].
  revert best. induction He as [item items|item other items He IH];
    intros best; simpl.
  - destruct (min_from_step best item) as [_ Hi].
    eapply key_le_trans; [apply min_from_le_best | exact Hi].
  - apply IH.
Qed.

Lemma _evict_oldest_nonempty (self : ConversionCache) k0 e0 rest :
  cache self = (k0, e0) :: rest →
  _evict_oldest float_eqb float_ltb self
  = bind (dict.del (code_hash (min_from e0 (dict.values rest)))
                   (cache self))
         (λ c, Ok (set_cache self c)).
Proof. intros H. unfold _evict_oldest. by rewrite H. Qed.

(** The invariant holds of a new cache and is kept by [put] and [get],
    which return on every cache that has it. *)
Lemma cache_ok_init m : cache_ok (float := float) (__init__ m).
Proof. split; constructor. Qed.

Lemma cache_ok_set (self : ConversionCache) h (e : CacheEntry) :
  cache_ok self → code_hash e = h →
  cache_ok (set_cache self (dict.set h e (cache self))).
Proof.
  intros [Hnodup Hhash] He. split; simpl.
  - rewrite dict_facts.set_keys.
    destruct (dict.contains h (cache self)) eqn:E; [done|].
    apply dict_facts.contains_false in E.
    apply NoDup_app. split; [done|]. split; [|apply NoDup_singleton].
    by intros x Hx ->%list_elem_of_singleton.
  - by apply dict_facts.set_Forall.
Qed.

Lemma _evict_oldest_ok (self : ConversionCache) :
  cache_ok self →
  ∃ self', _evict_oldest float_eqb float_ltb self = Ok self' ∧
           cache_ok self'.
Proof.
  intros [Hnodup Hhash].
  destruct (cache self) as [|[k0 e0] rest] eqn:Hcache.
  { exists self. unfold _evict_oldest. rewrite Hcache.
    split; [done|]. split; by rewrite Hcache. }
  rewrite (_evict_oldest_nonempty _ _ _ _ Hcache), Hcache.
  set (victim := min_from e0 (dict.values rest)).
  assert (Hin : victim ∈ dict.values ((k0, e0) :: rest))
    by apply min_from_elem.
  apply list_elem_of_fmap in Hin as ([k v] & Hv & Hkv).
  simpl in Hv. subst v.
  assert (Hk : code_hash victim = k).
  { rewrite Forall_forall in Hhash. apply (Hhash _ Hkv). }
  apply list_elem_of_split in Hkv as (d1 & d2 & Hsplit).
  rewrite Hk, Hsplit in *. unfold dict.keys in Hnodup.
  rewrite fmap_app, fmap_cons in Hnodup.
  apply NoDup_app in Hnodup as (Hn1 & Hdisj & [Hk2 Hn2]%NoDup_cons).
  apply Forall_app in Hhash as [Hh1 [_ Hh2]%Forall_cons].
  rewrite dict_facts.del_split.
  - eexists. split; [reflexivity|]. split; simpl.
    + unfold dict.keys. rewrite fmap_app. apply NoDup_app.
      split; [done|]. split; [|done].
      intros x Hx1 Hx2. apply (Hdisj x Hx1). by right.
    + by apply Forall_app.
  - intros Hb. apply (Hdisj _ Hb). left.
Qed.

Lemma put_ok (self : ConversionCache) code converted_code now :
  cache_ok self →
  ∃ self', put self code converted_code now = Ok self' ∧ cache_ok self'.
Proof.
  intros Hok. unfold optimizer.put.
  destruct (_ && _).
  - destruct (_evict_oldest_ok self Hok) as (self1 & -> & Hok1).
    eexists. split; [reflexivity|]. by apply cache_ok_set.
  - eexists. split; [reflexivity|]. by apply cache_ok_set.
Qed.

Lemma get_ok (self : ConversionCache) code now :
  cache_ok self → cache_ok (get md5_hexdigest self code now).2.
Proof.
  intros Hok. unfold get.
  destruct (dict.get _ _) as [entry|] eqn:E; simpl; [|done].
  apply cache_ok_set; [done|]. simpl.
  destruct Hok as [_ Hhash]. rewrite Forall_forall in Hhash.
  revert E. generalize (_get_code_hash md5_hexdigest code). intros h.
  induction (cache self) as [|[k' v'] d IH]; simpl; [done|].
  destruct (String.eqb_spec k' h) as [->|Hne].
  - intros [= ->]. apply (Hhash (h, entry)). left.
  - intros E. apply IH; [|done]. intros x Hx. apply Hhash. by right.
Qed.

Lemma key_le_lt_trans a b c : key_le a b → key_lt b c → key_lt a c.
Proof.
  unfold optimizer.key_le. intros Hab Hbc.
  destruct (key_lt_total a c) as [H|[->|H]]; [done|done|].
  destruct Hab. by apply key_lt_trans with c.
Qed.

Lemma key_lt_le_trans a b c : key_lt a b → key_le b c → key_lt a c.
Proof.
  unfold optimizer.key_le. intros Hab Hbc.
  destruct (key_lt_total a c) as [H|[->|H]]; [done|done|].
  destruct Hbc. by apply key_lt_trans with a.
Qed.

(** [min] returns the first of the items with the least key: the items
    before it have a greater key, and those after it none below. *)
Lemma min_from_split best items :
  ∃ before after,
    best :: items = (before ++ min_from best items :: after)%list ∧
    Forall (λ e, key_lt (evict_key (min_from best items)) (evict_key e))
           before ∧
    Forall (λ e, key_le (evict_key (min_from best items)) (evict_key e))
           after.
Proof.
  revert best. induction items as [|item items IH]; intros best.
  { exists [], []. by repeat split. }
  simpl.
  destruct (IH (if tuple_lt (evict_key item) (evict_key best)
                then item else best)) as (b & a & Hsplit & Hb & Ha).
  destruct (tuple_lt (evict_key item) (evict_key best)) eqn:E.
  - exists (best :: b), a. split; [simpl; by rewrite Hsplit|].
    split; [|done]. constructor; [|done].
    apply key_le_lt_trans with (evict_key item);
      [apply min_from_le_best | by apply tuple_lt_spec].
  - assert (Hitem : key_le (evict_key best) (evict_key item)).
    { intros H%tuple_lt_spec. congruence. }
    destruct b as [|b0 b'].
    + injection Hsplit as Hm Hitems. exists [], (item :: items).
      split; [simpl; by rewrite <- Hm|]. split; [done|].
      constructor; [by rewrite <- Hm|]. by rewrite <- Hitems in Ha.
    + injection Hsplit as <- Hitems. exists (best :: item :: b'), a.
      split; [simpl; do 2 f_equal; exact Hitems|]. split; [|done].
      apply Forall_cons in Hb as [Hbest Hb'].
      constructor; [done|]. constructor; [|done].
      by apply key_lt_le_trans with (evict_key best).
Qed.

(** C8: a [put] of a new key on a cache that holds at least [max_size]
    entries, and at least one, removes one entry: no entry of the cache
    has a tuple [(last_accessed, -access_count)] below that of the
    entry removed, and every entry filed before it has a tuple above,
    so it is the first of the entries with the smallest tuple.  All
    other entries stay, in their order, and the new entry comes last. *)
Theorem put_evicts_smallest_key (self : ConversionCache)
    (code converted_code : string) (now : float) :
  cache_ok self →
  cache self ≠ [] →
  max_size self ≤ Z.of_nat (length (cache self)) →
  dict.contains (md5_hexdigest code) (cache self) = false →
  ∃ victim before after,
    cache self = (before ++ (code_hash victim, victim) :: after)%list ∧
    (∀ e, e ∈ dict.values (cache self) →
          ¬ key_lt (last_accessed e, - access_count e)
                   (last_accessed victim, - access_count victim)) ∧
    Forall (λ kv, key_lt (last_accessed victim, - access_count victim)
                         (last_accessed kv.2, - access_count kv.2))
           before ∧
    put self code converted_code now
    = Ok (set_cache self
            (before ++ after
             ++ [(md5_hexdigest code,
                  {| code_hash := md5_hexdigest code;
                     converted_code := converted_code;
                     timestamp := now;
                     access_count := 0;
                     last_accessed := float_zero |})])%list).
Proof.
  intros [Hnodup Hhash] Hne Hfull Hnew.
  destruct (cache self) as [|[k0 e0] rest] eqn:Hcache; [done|].
  set (d := (k0, e0) :: rest) in *.
  set (victim := min_from e0 (dict.values rest)).
  destruct (min_from_split e0 (dict.values rest))
    as (vb & va & Hvalues & Hvb & _).
  fold victim in Hvalues, Hvb.
  change (e0 :: dict.values rest) with (snd <$> d) in Hvalues.
  apply fmap_app_inv in Hvalues
    as (before & rest' & -> & Hrest' & Hsplit).
  symmetry in Hrest'.
  apply fmap_cons_inv in Hrest' as ([k v] & after & Hv & -> & ->).
  simpl in Hv. subst v.
  assert (Hk : code_hash victim = k).
  { rewrite Forall_forall in Hhash. apply (Hhash (k, victim)).
    rewrite Hsplit. apply elem_of_app. right. left. }
  exists victim, before, after. rewrite Hk.
  split; [done|]. split; [|split].
  - intros e He. by apply (min_from_least e0 (dict.values rest) e).
  - apply Forall_forall. intros [k' e'] Hin.
    rewrite Forall_forall in Hvb. apply (Hvb e').
    apply list_elem_of_fmap. by exists (k', e').
  - unfold optimizer.put, _get_code_hash. rewrite Hcache.
    fold d. rewrite Hnew, (proj2 (Z.leb_le _ _) Hfull).
    cbn [andb negb]. rewrite (_evict_oldest_nonempty _ _ _ _ Hcache).
    fold victim. rewrite Hk, Hcache. fold d. rewrite Hsplit.
    rewrite dict_facts.del_split; simpl.
    + rewrite dict_facts.set_fresh; [by rewrite <- app_assoc|].
      apply dict_facts.contains_false in Hnew.
      rewrite Hsplit in Hnew. unfold dict.keys in *.
      rewrite fmap_app, fmap_cons, not_elem_of_app, not_elem_of_cons
        in Hnew.
      rewrite fmap_app, not_elem_of_app. tauto.
    + rewrite Hsplit in Hnodup. unfold dict.keys in *.
      rewrite fmap_app, fmap_cons in Hnodup.
      apply NoDup_app in Hnodup as (_ & Hdisj & _).
      intros Hb. apply (Hdisj _ Hb). left.
Qed.
End eviction.

(** A cache of capacity two that is full: both entries were last read at
    time 5, the one under [h1] once and the one under [h2] three times.
    The clock counts in whole units and the hash is taken as the
    identity. *)
Lemma put_evicts_smallest_key_witness :
  let e1 := {| code_hash := "h1"; converted_code := "int a = 1;";
               timestamp := 1; access_count := 1; last_accessed := 5 |} in
  let e2 := {| code_hash := "h2"; converted_code := "int b = 2;";
               timestamp := 2; access_count := 3; last_accessed := 5 |} in
  let self := {| max_size := 2; cache_file := None;
                 cache := [("h1", e1); ("h2", e2)] |} in
  ∃ victim before after,
    cache self = before ++ (code_hash victim, victim) :: after ∧
    (∀ e, e ∈ dict.values (cache self) →
          ¬ key_lt Z.ltb (last_accessed e, - access_count e)
                   (last_accessed victim, - access_count victim)) ∧
    Forall (λ kv, key_lt Z.ltb
                    (last_accessed victim, - access_count victim)
                    (last_accessed kv.2, - access_count kv.2))
           before ∧
    put Z.eqb Z.ltb 0 id self "h3" "int c = 3;" 7
    = Ok (set_cache self
            (before ++ after
             ++ [("h3", {| code_hash := "h3"; converted_code := "int c = 3;";
                           timestamp := 7; access_count := 0;
                           last_accessed := 0 |})])).
Proof.
  intros e1 e2 self.
  apply (put_evicts_smallest_key Z.eqb Z.ltb 0 id).
  - apply Z.eqb_eq.
  - apply Z.ltb_irrefl.
  - intros a b c. rewrite !Z.ltb_lt. lia.
  - intros a b. rewrite !Z.ltb_lt. lia.
  - split.
    + apply (bool_decide_unpack _). vm_compute. exact I.
    + repeat constructor.
  - discriminate.
  - vm_compute. discriminate.
  - reflexivity.
Defined.

(** On that cache the entry under [h2] goes, the one read more often:
    with equal times of the last read the greater count gives the
    smaller tuple.  [h1] stays and [h3] is last. *)
Example put_on_full_cache :
  let e1 := {| code_hash := "h1"; converted_code := "int a = 1;";
               timestamp := 1; access_count := 1; last_accessed := 5 |} in
  let e2 := {| code_hash := "h2"; converted_code := "int b = 2;";
               timestamp := 2; access_count := 3; last_accessed := 5 |} in
  let self := {| max_size := 2; cache_file := None;
                 cache := [("h1", e1); ("h2", e2)] |} in
  put Z.eqb Z.ltb 0 id self "h3" "int c = 3;" 7
  = Ok (set_cache self
          [("h1", e1);
           ("h3", {| code_hash := "h3"; converted_code := "int c = 3;";
                     timestamp := 7; access_count := 0;
                     last_accessed := 0 |})]).
Proof. vm_compute. reflexivity. Qed.

End optimizer_claims.


(** ** The lines of the basic renderer *)
Module core_lines_facts.
Import core core_logic core_lines.
Local Open Scope action_scope.
Local Open Scope list_scope.

Lemma append_cons c a b : String c a +:+ b = String c (a +:+ b).
Proof. reflexivity. Qed.

Lemma append_nil_r s : s +:+ EmptyString = s.
Proof. induction s as [|c s IH]; [done|]. by rewrite append_cons, IH. Qed.

Lemma append_assoc a b c : (a +:+ b) +:+ c = a +:+ (b +:+ c).
Proof. induction a as [|d a IH]; [done|]. by rewrite !append_cons, IH. Qed.

Lemma last_char_app a b :
  last_char (a +:+ b)
  = match last_char b with Some c => Some c | None => last_char a end.
Proof.
  induction a as [|c a IH].
  - change (EmptyString +:+ b) with b. by destruct (last_char b).
  - rewrite append_cons. simpl. rewrite IH.
    destruct (last_char b); [done|]. by destruct (last_char a).
Qed.

Lemma strip_nonempty_last s c :
  last_char s = Some c → isspace c = false → strip_nonempty s = true.
Proof.
  unfold strip_nonempty. intros Hlast Hc.
  induction s as [|d s IH]; simpl in *; [done|].
  destruct (last_char s) as [e|].
  - rewrite IH by done. apply orb_true_r.
  - injection Hlast as ->. by rewrite Hc.
Qed.

Lemma strip_nonempty_has_last s :
  strip_nonempty s = true → ∃ c, last_char s = Some c.
Proof.
  destruct s as [|d s]; [done|]. intros _. simpl.
  destruct (last_char s); eauto.
Qed.

Lemma brace_delta_indent p line :
  strip_nonempty line = true → brace_delta (p +:+ line) = brace_delta line.
Proof.
  intros [c Hc]%strip_nonempty_has_last. unfold brace_delta.
  by rewrite last_char_app, Hc.
Qed.

Lemma balance_app l1 l2 : balance (l1 ++ l2) = balance l1 + balance l2.
Proof. unfold balance. induction l1; simpl; lia. Qed.

Lemma prefix_app p s : String.prefix p (p +:+ s) = true.
Proof.
  induction p as [|c p IH]; [by destruct s|].
  rewrite append_cons. simpl. by destruct (ascii_dec c c).
Qed.

Lemma concat_empty_cons x l :
  String.concat EmptyString (x :: l) = x +:+ String.concat EmptyString l.
Proof. destruct l; simpl; [by rewrite append_nil_r|done]. Qed.

Lemma repeat_str_add s (a b : nat) :
  repeat_str s (Z.of_nat (a + b))
  = repeat_str s (Z.of_nat a) +:+ repeat_str s (Z.of_nat b).
Proof.
  unfold repeat_str. rewrite !Nat2Z.id.
  induction a as [|a IH]; [done|].
  change (replicate (S a + b) s) with (s :: replicate (a + b) s).
  change (replicate (S a) s) with (s :: replicate a s).
  by rewrite !concat_empty_cons, IH, append_assoc.
Qed.

(** A deeper indentation starts with a shallower one. *)
Lemma indented_deeper i0 i line :
  i0 ≤ i → indented i0 (repeat_str "    " i +:+ line) = true.
Proof.
  intros Hle. unfold indented.
  destruct (Z.le_gt_cases i0 0) as [Hneg|Hpos].
  { unfold repeat_str at 1. rewrite Z2Nat.nonpos by done. simpl.
    by destruct (_ +:+ _). }
  replace i with (Z.of_nat (Z.to_nat i0 + Z.to_nat (i - i0))) by lia.
  rewrite repeat_str_add, Z2Nat.id, append_assoc by lia.
  apply prefix_app.
Qed.

(** The steps of a handler on [rframe]. *)
Lemma rframe_add_line i0 i cs l0 k line d :
  brace_delta line = d → strip_nonempty line = true → i0 ≤ i →
  hoare (rframe i0 i cs l0 k) (add_line line true) (rframe i0 i cs l0 (k + d)).
Proof.
  intros Hd Hline Hle self (Hi & Hcs & added & Hl & Hk & Hind).
  unfold add_line. rewrite Hline. simpl.
  eexists. split; [reflexivity|]. split; [done|]. split; [done|]. simpl.
  exists (added ++ [repeat_str "    " (indent_level self) +:+ line]).
  split; [by rewrite Hl, app_assoc|]. split.
  - rewrite balance_app. simpl. rewrite brace_delta_indent by done. lia.
  - apply Forall_app. split; [done|]. constructor; [|done].
    rewrite Hi. by apply indented_deeper.
Qed.

Lemma rframe_set_indent_level i0 i cs l0 k f :
  hoare (rframe i0 i cs l0 k) (set_indent_level f) (rframe i0 (f i) cs l0 k).
Proof.
  intros self (Hi & Hcs & Hl). eexists. split; [reflexivity|].
  split; [simpl; congruence|]. by split.
Qed.

Lemma rframe_set_in_method i0 i cs l0 k b :
  hoare (rframe i0 i cs l0 k) (set_in_method b) (rframe i0 i cs l0 k).
Proof. intros self H. eexists. split; [reflexivity|exact H]. Qed.

Lemma rframe_class_stack_append i0 i cs l0 k name :
  hoare (rframe i0 i cs l0 k) (class_stack_append name)
        (rframe i0 i (cs ++ [name]) l0 k).
Proof.
  intros self (Hi & Hcs & Hl). eexists. split; [reflexivity|].
  split; [done|]. split; [simpl; congruence|done].
Qed.

Lemma rframe_class_stack_pop i0 i cs l0 k name :
  hoare (rframe i0 i (cs ++ [name]) l0 k) class_stack_pop
        (rframe i0 i cs l0 k).
Proof.
  intros self (Hi & Hcs & Hl). unfold class_stack_pop. rewrite Hcs.
  destruct (cs ++ [name]) eqn:E; [by destruct cs|]. rewrite <- E.
  eexists. split; [reflexivity|]. split; [done|]. split; [|done].
  simpl. apply removelast_last.
Qed.

Lemma rframe_foreach {A} (f : A → action) (l : list A) i0 i cs l0 k :
  Forall (λ x, keeps (f x)) l → i0 ≤ i →
  hoare (rframe i0 i cs l0 k) (foreach f l) (rframe i0 i cs l0 k).
Proof.
  intros Hl Hle. induction Hl as [|x l Hx _ IH]; simpl.
  - apply core_facts.hoare_skip.
  - eapply core_facts.hoare_seq; [by apply Hx | apply IH].
Qed.

Lemma rframe_eq i0 i j cs l0 k m self :
  i = j → k = m → rframe i0 i cs l0 k self → rframe i0 j cs l0 m self.
Proof. by intros -> ->. Qed.

(** The last character of a line that ends with known text. *)
Ltac line_end :=
  unfold brace_delta; rewrite ?last_char_app; reflexivity.
Ltac line_text :=
  eapply strip_nonempty_last; [rewrite ?last_char_app; reflexivity|done].

Ltac rlast :=
  first [ eapply rframe_add_line; [line_end | line_text | lia]
        | apply rframe_set_indent_level | apply rframe_set_in_method
        | apply rframe_class_stack_append | apply rframe_class_stack_pop
        | apply core_facts.hoare_skip
        | apply rframe_foreach; [eassumption | lia] ].
Ltac rstep := eapply core_facts.hoare_seq; [rlast|].
Ltac rsteps := repeat rstep; rlast.
Ltac rdone := intros ?; simpl; apply rframe_eq; lia.

Section handlers.
Variable visit : ast.node → action.

Lemma visit_ClassDef_keeps name bases body :
  Forall (λ n, keeps (visit n)) body →
  keeps (visit_ClassDef visit name bases body).
Proof.
  intros Hbody i0 i cs l0 k Hle. unfold visit_ClassDef.
  eapply core_facts.hoare_post; [rsteps|rdone].
Qed.

Lemma visit_FunctionDef_keeps name args returns body :
  Forall (λ n, keeps (visit n)) body →
  keeps (visit_FunctionDef visit name args returns body).
Proof.
  intros Hbody i0 i cs l0 k Hle self Hself. unfold visit_FunctionDef.
  match goal with |- ∃ s, ?a self = _ ∧ _ =>
    assert (Ha : hoare (rframe i0 i cs l0 k) a
                   (rframe i0 (indent_level self) cs l0 (k + 1 + -1)))
  end.
  { destruct Hself as [<- _]. rsteps. }
  destruct (Ha self Hself) as (s' & E & H'). exists s'. split; [done|].
  destruct Hself as [<- _]. revert H'. apply rframe_eq; lia.
Qed.

Lemma visit_Assign_keeps targets value :
  keeps (visit_Assign targets value).
Proof.
  intros i0 i cs l0 k Hle. unfold visit_Assign.
  destruct (omap _ targets) as [|t ts] eqn:E;
    [apply core_facts.hoare_skip|].
  destruct (_ =? _)%nat.
  - eapply core_facts.hoare_post; [rlast|rdone].
  - eapply core_facts.hoare_post.
    + rstep. apply rframe_foreach; [|lia]. apply Forall_forall.
      intros x _ j0 j ds m0 m Hj.
      eapply core_facts.hoare_post; [rlast|rdone].
    + rdone.
Qed.

Lemma visit_Return_keeps value : keeps (visit_Return value).
Proof.
  intros i0 i cs l0 k Hle.
  destruct value; (eapply core_facts.hoare_post; [rlast|rdone]).
Qed.

Lemma visit_If_keeps test body orelse :
  Forall (λ n, keeps (visit n)) body →
  Forall (λ n, keeps (visit n)) orelse →
  keeps (visit_If visit test body orelse).
Proof.
  intros Hbody Horelse i0 i cs l0 k Hle. unfold visit_If.
  destruct orelse; (eapply core_facts.hoare_post; [rsteps|rdone]).
Qed.

Lemma visit_For_keeps target iter body :
  Forall (λ n, keeps (visit n)) body →
  keeps (visit_For visit target iter body).
Proof.
  intros Hbody i0 i cs l0 k Hle. unfold visit_For.
  eapply core_facts.hoare_post; [rsteps|rdone].
Qed.

Lemma visit_While_keeps test body :
  Forall (λ n, keeps (visit n)) body →
  keeps (visit_While visit test body).
Proof.
  intros Hbody i0 i cs l0 k Hle. unfold visit_While.
  eapply core_facts.hoare_post; [rsteps|rdone].
Qed.

Lemma visit_Expr_keeps value : keeps (visit_Expr value).
Proof.
  intros i0 i cs l0 k Hle. unfold visit_Expr.
  destruct value as [| | | | | | | | | | | |[]| | | | | | | | |];
    first [ apply core_facts.hoare_skip
          | eapply core_facts.hoare_post; [rlast|rdone] ].
Qed.
End handlers.

Lemma seq_keeps a b : keeps a → keeps b → keeps (a ;; b).
Proof.
  intros Ha Hb i0 i cs l0 k Hle.
  eapply core_facts.hoare_seq; [by apply Ha | by apply Hb].
Qed.

Lemma foreach_keeps {A} (f : A → action) l :
  Forall (λ x, keeps (f x)) l → keeps (foreach f l).
Proof. intros Hl i0 i cs l0 k Hle. by apply rframe_foreach. Qed.

Lemma skip_keeps : keeps skip.
Proof. intros i0 i cs l0 k Hle. apply core_facts.hoare_skip. Qed.

Lemma keys_keeps (visit : ast.node → action) keys :
  Forall (λ n, keeps (visit n)) (omap id keys) →
  Forall (λ k, keeps (from_option visit skip k)) keys.
Proof.
  induction keys as [|[k|] keys IH]; simpl; intros H.
  - constructor.
  - apply Forall_cons in H as [? ?]. constructor; auto.
  - constructor; [apply skip_keeps | auto].
Qed.

Lemma comparators_keeps (visit : ast.node → action)
    (rest : list (ast.cmpop * ast.node)) :
  Forall (λ n, keeps (visit n)) (map snd rest) →
  Forall (λ p, keeps (let '(_, c) := p in visit c)) rest.
Proof.
  induction rest as [|[op c] rest IH]; simpl; intros H; [constructor|].
  apply Forall_cons in H as [? ?]. constructor; auto.
Qed.

Lemma visit_keeps n : keeps (visit n).
Proof.
  induction n as [n IH] using ast_facts.node_children_ind.
  destruct n; simpl in IH; simpl visit;
    repeat match goal with
      | H : Forall _ (_ :: _) |- _ => apply Forall_cons in H as [? ?]
      | H : Forall _ (_ ++ _) |- _ => apply Forall_app in H as [? ?]
      end;
    first
      [ apply visit_ClassDef_keeps | apply visit_FunctionDef_keeps
      | apply visit_Assign_keeps | apply visit_Return_keeps
      | apply visit_If_keeps | apply visit_For_keeps
      | apply visit_While_keeps | apply visit_Expr_keeps
      | apply skip_keeps
      | repeat first [ apply seq_keeps | apply foreach_keeps ] ];
    auto using keys_keeps, comparators_keeps.
Qed.

End core_lines_facts.


(** ** Further properties of the basic renderer *)
Module core_extras.
Import core core_logic core_lines programs.
Local Open Scope list_scope.

(** When a visit returns, it has only appended lines to the output, and
    the appended lines close every block they open: as many of them end
    in a closing brace as in an opening one. *)
Theorem visit_appends_balanced_lines (n : ast.node)
    (self self' : JavaStyleConverter) :
  visit n self = Ok self' →
  ∃ added, lines self' = lines self ++ added ∧ balance added = 0.
Proof.
  intros Hvisit.
  destruct (core_lines_facts.visit_keeps n (indent_level self)
              (indent_level self) (class_stack self) (lines self) 0
              (Z.le_refl _) self)
    as (self1 & E & _ & _ & added & Hl & Hk & _).
  { repeat split. exists []. by rewrite app_nil_r. }
  rewrite E in Hvisit. injection Hvisit as <-. by exists added.
Qed.

(** A loop with a conditional in it, visited inside a method body. *)
Lemma visit_appends_balanced_lines_witness :
  let n := ast.While (ast.Name "busy")
             [ast.If (ast.Name "done")
                [ast.Return (Some (ast.Name "x"))]
                [ast.Expr (ast.Call (ast.Name "step") [] [])]] [] in
  let self := {| indent_level := 1; lines := ["public Object f() {"];
                 class_stack := []; in_method := true |} in
  ∃ self', visit n self = Ok self' ∧
           ∃ added, lines self' = lines self ++ added ∧ balance added = 0.
Proof.
  intros n self.
  destruct (visit n self) as [self'|e] eqn:E; [|vm_compute in E; discriminate].
  exists self'. split; [reflexivity|].
  exact (visit_appends_balanced_lines n self self' E).
Defined.

(** Every line that a visit appends starts with the indentation of the
    level at which the visit began. *)
Theorem visit_lines_indented (n : ast.node) (self : JavaStyleConverter) :
  ∃ self' added,
    visit n self = Ok self' ∧
    lines self' = lines self ++ added ∧
    Forall (λ line, indented (indent_level self) line = true) added.
Proof.
  destruct (core_lines_facts.visit_keeps n (indent_level self)
              (indent_level self) (class_stack self) (lines self) 0
              (Z.le_refl _) self)
    as (self' & E & _ & _ & added & Hl & _ & Hind).
  { repeat split. exists []. by rewrite app_nil_r. }
  by exists self', added.
Qed.

(** With a new converter the package header is never emitted: the type
    stack is empty again when the tree has been visited, and [convert]
    returns the lines joined by line feeds. *)
Theorem convert_tree_without_package (tree : ast.node) :
  ∃ self', visit tree __init__ = Ok self' ∧
           convert_tree __init__ tree = Ok (join nl (lines self')).
Proof.
  destruct (core_facts.visit_restores tree 0 [] __init__)
    as (self' & E & _ & Hcs); [done|].
  exists self'. split; [done|]. unfold convert_tree. rewrite E. simpl.
  by rewrite Hcs.
Qed.

(** The declared type of an assignment is one of six names, and never
    [boolean]: the branches for booleans cannot be reached. *)
Theorem _infer_type_range (n : ast.node) :
  _infer_type n ∈ ["int"; "double"; "String"; "List<Object>";
                   "Map<Object, Object>"; "Object"] ∧
  _infer_type n ≠ "boolean".
Proof.
  destruct n as [| | | | | | | | | | | |c| | | | | | | | |];
    try (split; [set_solver|done]).
  destruct c as [|[]| | | | | |]; split; (set_solver || done).
Qed.

Lemma add_line_text line self :
  strip_nonempty line = true →
  add_line line true self
  = lines_append (repeat_str "    " (indent_level self) +:+ line) self.
Proof. intros H. unfold add_line. by rewrite H. Qed.

Lemma foreach_add_line (f : string → string) (names : list string) self :
  (∀ x, strip_nonempty (f x) = true) →
  foreach (λ x, add_line (f x) true) names self
  = Ok {| indent_level := indent_level self;
          lines := lines self
                   ++ map (λ x, repeat_str "    " (indent_level self)
                                  +:+ f x) names;
          class_stack := class_stack self;
          in_method := in_method self |}.
Proof.
  intros Hf. revert self. induction names as [|x names IH]; intros self.
  - simpl. rewrite app_nil_r. by destruct self.
  - simpl. unfold seq. rewrite add_line_text by done. simpl.
    rewrite IH. simpl. by rewrite <- app_assoc.
Qed.

(** An assignment to two names or more gives one declaration line for
    all of them and then one assignment line for each, every one with the
    rendered value; nothing else of the context changes. *)
Theorem chained_assignment_lines (targets : list ast.node)
    (value : ast.node) (self : JavaStyleConverter) :
  let names :=
    omap (λ t, match t with ast.Name id => Some id | _ => None end)
         targets in
  let indent := repeat_str "    " (indent_level self) in
  (2 ≤ length names)%nat →
  visit (ast.Assign targets value) self
  = Ok {| indent_level := indent_level self;
          lines := lines self
                   ++ (indent +:+ _infer_type value +:+ " "
                         +:+ join ", " names +:+ ";")
                      :: map (λ name, indent +:+ name +:+ " = "
                                        +:+ _get_value_code value +:+ ";")
                             names;
          class_stack := class_stack self;
          in_method := in_method self |}.
Proof.
  cbv zeta. simpl visit. unfold visit_Assign.
  generalize (omap (λ t, match t with ast.Name id => Some id | _ => None end)
                   targets).
  intros names Hlen.
  destruct names as [|a rest] eqn:E; [simpl in Hlen; lia|].
  cbv beta iota. rewrite <- E in *. clear E a rest.
  replace (length names =? 1)%nat with false
    by (symmetry; apply Nat.eqb_neq; lia).
  unfold seq. rewrite add_line_text.
  2:{ eapply core_lines_facts.strip_nonempty_last;
        [rewrite ?core_lines_facts.last_char_app; reflexivity|done]. }
  simpl bind.
  rewrite (foreach_add_line
             (λ t, t +:+ " = " +:+ _get_value_code value +:+ ";")).
  2:{ intros x. eapply core_lines_facts.strip_nonempty_last;
        [rewrite ?core_lines_facts.last_char_app; reflexivity|done]. }
  simpl. by rewrite <- app_assoc.
Qed.

Lemma chained_assignment_lines_witness :
  visit (ast.Assign [ast.Name "a"; ast.Name "b"]
           (ast.Call (ast.Name "compute") [] []))
        {| indent_level := 1; lines := ["public Object f() {"];
           class_stack := []; in_method := true |}
  = Ok {| indent_level := 1;
          lines := ["public Object f() {"; "    Object a, b;";
                    "    a = compute();"; "    b = compute();"];
          class_stack := []; in_method := true |}.
Proof.
  apply (chained_assignment_lines [ast.Name "a"; ast.Name "b"]).
  simpl. lia.
Defined.


End core_extras.


(** ** Predicates on whole trees *)
Module tree_facts.
Import tree.
Local Open Scope list_scope.

Lemma forallb_Forall {A} (p : A → bool) l :
  forallb p l = true → Forall (λ x, p x = true) l.
Proof. intros H. apply Forall_forall. intros x Hx%list_elem_of_In.
       by apply (proj1 (forallb_forall p l) H). Qed.

Lemma forallb_keys (p : ast.node → bool) (keys : list (option ast.node)) :
  forallb (from_option p true) keys = true →
  Forall (λ x, p x = true) (omap id keys).
Proof.
  induction keys as [|[k|] keys IH]; simpl; [constructor| |done].
  intros [? ?]%andb_true_iff. constructor; auto.
Qed.

Lemma forallb_comparators (p : ast.node → bool)
    (rest : list (ast.cmpop * ast.node)) :
  forallb (λ '(_, c), p c) rest = true →
  Forall (λ x, p x = true) (map snd rest).
Proof.
  induction rest as [|[op c] rest IH]; simpl; [constructor|].
  intros [? ?]%andb_true_iff. constructor; auto.
Qed.

(** What holds of all nodes of a tree holds of its root and of all nodes
    of the trees of its children. *)
Lemma all_nodes_children p n :
  all_nodes p n = true →
  p n = true ∧
  Forall (λ c, all_nodes p c = true) (ast.iter_child_nodes n).
Proof.
  destruct n; simpl; intros H;
    repeat match goal with
      | H : _ && _ = true |- _ => apply andb_true_iff in H as [? ?]
      end;
    (split; [done|]);
    repeat match goal with
      | H : forallb (from_option _ true) _ = true |- _ =>
          apply forallb_keys in H
      | H : forallb (λ '(_, _), _) _ = true |- _ =>
          apply forallb_comparators in H
      | H : forallb _ _ = true |- _ => apply forallb_Forall in H
      | o : option ast.node |- _ => destruct o; simpl in *
      end;
    repeat first [rewrite Forall_cons | rewrite Forall_app]; auto 10.
Qed.

End tree_facts.

(** ** Further properties of the mapping-augmented renderer *)
Module mapper_extras.
Import mapper mapper_spec mapper_imports mapper_logic tree programs.
Local Open Scope list_scope.

Lemma foreach_fixed {A} (f : A → update) (l : list A) self :
  Forall (λ x, ∀ self, f x self = self) l → foreach f l self = self.
Proof.
  unfold foreach. intros Hl. revert self.
  induction Hl as [|x l Hx _ IH]; intros self; simpl; [done|].
  by rewrite Hx, IH.
Qed.

Lemma comparators_fixed (rest : list (ast.cmpop * ast.node)) :
  Forall (λ c, ∀ self, visit c self = self) (map snd rest) →
  Forall (λ p, ∀ self, (let '(_, c) := p in visit c) self = self) rest.
Proof.
  induction rest as [|[op c] rest IH]; simpl; intros H; [constructor|].
  apply Forall_cons in H as [? ?]. constructor; auto.
Qed.

Lemma visit_import_free_fixed n :
  import_free n = true → ∀ self, visit n self = self.
Proof.
  induction n as [n IH] using ast_facts.node_children_ind.
  intros [Hn Hc]%tree_facts.all_nodes_children self.
  assert (Hchildren : Forall (λ c, ∀ self, visit c self = self)
                             (ast.iter_child_nodes n)).
  { rewrite Forall_forall in *. intros c Hin. by apply IH, Hc. }
  clear IH Hc.
  destruct n; simpl in *; try done;
    repeat match goal with
      | H : Forall _ (_ :: _) |- _ => apply Forall_cons in H as [? ?]
      | H : Forall _ (_ ++ _) |- _ => apply Forall_app in H as [? ?]
      | H : Forall _ (map snd _) |- _ => apply comparators_fixed in H
      | o : option ast.node |- _ => destruct o; simpl in *
      end;
    repeat first [ rewrite foreach_fixed by done
                 | match goal with H : ∀ self, visit _ self = self |- _ =>
                     rewrite H end ];
    try done.
Qed.

(** A tree without import statements leaves the converter as it is: the
    mapping-augmented renderer gives no line for any other statement. *)
Theorem visit_without_imports (n : ast.node) (self : EnhancedConverter) :
  import_free n = true → visit n self = self.
Proof. intros H. by apply visit_import_free_fixed. Qed.

Lemma visit_without_imports_witness :
  import_free HelloWorld = true ∧ visit HelloWorld __init__ = __init__.
Proof.
  assert (H : import_free HelloWorld = true) by (vm_compute; reflexivity).
  split; [exact H|]. exact (visit_without_imports HelloWorld __init__ H).
Defined.

(** The pre-scan adds no line of code. *)
Lemma _collect_info_lines tree self :
  lines (_collect_info tree self) = lines self.
Proof.
  unfold _collect_info, foreach. revert self.
  induction (ast.walk tree) as [|x l IH]; intros self; [done|].
  simpl. rewrite IH. by destruct x.
Qed.

Lemma required_imports_prescan_lines (nodes : list ast.node) :
  Forall (λ line, line ∈ prescan_lines) (flat_map required_imports nodes).
Proof.
  induction nodes as [|n nodes IH]; simpl; [done|].
  apply Forall_app. split; [|done].
  destruct n; simpl; repeat constructor; set_solver.
Qed.

(** For a program without import statements the output holds no code: it
    is empty, or it is made of import lines of the pre-scan, each one of
    the four lines for [List], [ArrayList], [Map] and [HashMap], and one
    empty line after them. *)
Theorem convert_tree_without_imports (tree : ast.node) :
  import_free tree = true →
  ∃ needed,
    Forall (λ line, line ∈ prescan_lines) needed ∧
    convert_tree __init__ tree
    = match needed with
      | [] => EmptyString
      | _ => join nl (needed ++ [EmptyString])
      end.
Proof.
  intros H. exists (flat_map required_imports (ast.walk tree)).
  split; [apply required_imports_prescan_lines|].
  unfold convert_tree.
  rewrite visit_import_free_fixed by done.
  rewrite mapper_claims._collect_info_imports, _collect_info_lines.
  change (imports __init__) with (@nil string).
  change (lines __init__) with (@nil string).
  rewrite app_nil_l. by destruct (flat_map _ _).
Qed.

Lemma convert_tree_without_imports_witness :
  import_free two_lists = true ∧
  ∃ needed,
    Forall (λ line, line ∈ prescan_lines) needed ∧
    convert_tree __init__ two_lists
    = match needed with
      | [] => EmptyString
      | _ => join nl (needed ++ [EmptyString])
      end.
Proof.
  assert (H : import_free two_lists = true) by (vm_compute; reflexivity).
  split; [exact H|]. exact (convert_tree_without_imports two_lists H).
Defined.

(** The pre-scan is its loop body run over the nodes of [ast.walk]. *)
Lemma _collect_info_loop (tree : ast.node) :
  _collect_info tree = foreach _collect_info_node (ast.walk tree).
Proof. reflexivity. Qed.

(** Whatever nodes the loop of the pre-scan is run over, it appends to
    [imports], after what is there, the two lines of every list display
    and every dict display among them, node after node in their order,
    and changes nothing else of the converter. *)
Theorem prescan_imports_in_node_order (nodes : list ast.node)
    (self : EnhancedConverter) :
  let self' := foreach _collect_info_node nodes self in
  imports self' = imports self ++ flat_map required_imports nodes ∧
  lines self' = lines self ∧
  indent_level self' = indent_level self ∧
  in_class self' = in_class self ∧
  variables self' = variables self.
Proof.
  unfold foreach. revert self.
  induction nodes as [|x l IH]; intros self; simpl.
  - by rewrite app_nil_r.
  - destruct (IH (_collect_info_node x self)) as (Hi & Hl & Hd & Hc & Hv).
    rewrite Hi, Hl, Hd, Hc, Hv.
    destruct x; simpl; rewrite <- ?app_assoc; by rewrite ?app_nil_r.
Qed.

Lemma grows_refl self : grows self self.
Proof. by repeat split. Qed.

Lemma grows_trans s1 s2 s3 : grows s1 s2 → grows s2 s3 → grows s1 s3.
Proof.
  intros (? & ? & ? & ? & ?) (? & ? & ? & ? & ?).
  repeat split; try congruence; by etrans.
Qed.

Lemma grows_lines_append line self : grows self (lines_append line self).
Proof. repeat split; try done. by apply prefix_app_r. Qed.

Lemma grows_imports_append line self :
  grows self (imports_append line self).
Proof. repeat split; try done. by apply prefix_app_r. Qed.

Lemma grows_add_line line indent self :
  grows self (add_line line indent self).
Proof.
  unfold add_line. destruct (_ && _); apply grows_lines_append.
Qed.

Lemma grows_foreach {A} (f : A → update) (l : list A) self :
  Forall (λ x, ∀ self, grows self (f x self)) l →
  grows self (foreach f l self).
Proof.
  unfold foreach. intros Hl. revert self.
  induction Hl as [|x l Hx _ IH]; intros self; simpl; [apply grows_refl|].
  eapply grows_trans; [apply Hx | apply IH].
Qed.

Lemma grows_visit_Import names self : grows self (visit_Import names self).
Proof.
  apply grows_foreach, Forall_forall. intros x _ s.
  destruct (startswith x "pythva"); apply grows_add_line.
Qed.

Lemma grows_visit_ImportFrom module names self :
  grows self (visit_ImportFrom module names self).
Proof.
  unfold visit_ImportFrom. destruct module as [[|c m]|]; try apply grows_refl.
  apply grows_foreach, Forall_forall. intros x _ s.
  destruct (_ && _); [apply grows_imports_append|].
  destruct (_ && _); [apply grows_imports_append|apply grows_add_line].
Qed.

Lemma comparators_grow (rest : list (ast.cmpop * ast.node)) :
  Forall (λ c, ∀ self, grows self (visit c self)) (map snd rest) →
  Forall (λ p, ∀ self, grows self ((let '(_, c) := p in visit c) self)) rest.
Proof.
  induction rest as [|[op c] rest IH]; simpl; intros H; [constructor|].
  apply Forall_cons in H as [? ?]. constructor; auto.
Qed.

Lemma visit_grows_all n : ∀ self, grows self (visit n self).
Proof.
  induction n as [n IH] using ast_facts.node_children_ind.
  intros self.
  destruct n; simpl in *;
    repeat match goal with
      | H : Forall _ (_ :: _) |- _ => apply Forall_cons in H as [? ?]
      | H : Forall _ (_ ++ _) |- _ => apply Forall_app in H as [? ?]
      | H : Forall _ (map snd _) |- _ => apply comparators_grow in H
      | o : option ast.node |- _ => destruct o; simpl in *
      end;
    try apply grows_refl;
    try apply grows_visit_Import; try apply grows_visit_ImportFrom;
    repeat first
      [ by apply grows_foreach
      | by auto
      | eapply grows_trans; [|by apply grows_foreach]
      | eapply grows_trans; [|by auto] ].
Qed.

(** A visit of the mapping-augmented renderer only adds lines and
    imports: what was emitted stays, and the indent, which no handler
    changes, is on return what it was. *)
Theorem visit_grows (n : ast.node) (self : EnhancedConverter) :
  grows self (visit n self).
Proof. apply visit_grows_all. Qed.

#[local] Instance str_le_total : Total str_le.
Proof. intros s1 s2. apply String.leb_total. Qed.

Lemma elem_of_fold_imports (taken : string → bool)
    (names : list string) (acc : gset string) (line : string) :
  line ∈ foldl (λ imports type_name,
                  if taken type_name
                  then imports ∪ imports_of type_name
                  else imports) acc names
  ↔ line ∈ acc ∨
    ∃ type_name, type_name ∈ names ∧ taken type_name = true ∧
                 line ∈ imports_of type_name.
Proof.
  revert acc. induction names as [|t names IH]; intros acc; simpl.
  - split; [by left|]. intros [?|(t & Ht & _)]; [done|].
    by apply elem_of_nil in Ht.
  - rewrite IH. split.
    + intros [Hacc|(t' & Ht' & Htaken & Hline)].
      * destruct (taken t) eqn:E; [|by left].
        apply elem_of_union in Hacc as [?|?]; [by left|].
        right. exists t. split; [left|done].
      * right. exists t'. split; [by right|done].
    + intros [Hacc|(t' & Ht' & Htaken & Hline)].
      * left. destruct (taken t); [apply elem_of_union|]; auto.
      * apply elem_of_cons in Ht' as [->|Ht'].
        -- left. rewrite Htaken. apply elem_of_union. by right.
        -- right. by exists t'.
Qed.

Lemma elem_of_get_required_imports code line :
  line ∈ get_required_imports code ↔
  ∃ type_name,
    type_name ∈ ["List"; "Map"; "Set"; "Arrays"; "Collections"] ∧
    contains_str type_name code = true ∧
    line ∈ imports_of type_name.
Proof.
  unfold get_required_imports, sorted.
  rewrite merge_sort_Permutation, elem_of_elements.
  rewrite elem_of_fold_imports. split; [|by right].
  intros [H|H]; [by apply elem_of_empty in H|done].
Qed.

(** [get_required_imports] returns a sorted list without repetition;
    it holds exactly the lines of the type names, of the five it looks
    for, that occur in the text. *)
Theorem get_required_imports_sorted_set (code : string) :
  Sorted str_le (get_required_imports code) ∧
  NoDup (get_required_imports code) ∧
  ∀ line,
    line ∈ get_required_imports code ↔
    ∃ type_name,
      type_name ∈ ["List"; "Map"; "Set"; "Arrays"; "Collections"] ∧
      contains_str type_name code = true ∧
      line ∈ imports_of type_name.
Proof.
  split; [|split].
  - unfold get_required_imports, sorted. apply Sorted_merge_sort. apply _.
  - unfold get_required_imports, sorted.
    rewrite merge_sort_Permutation. apply NoDup_elements.
  - apply elem_of_get_required_imports.
Qed.

(** Every line of [get_required_imports] imports from [java.util] a type
    of which [needs_import] holds. *)
Theorem required_imports_need_import (code line : string) :
  line ∈ get_required_imports code →
  ∃ java_type, line = "import java.util." +:+ java_type +:+ ";" ∧
               needs_import java_type = true.
Proof.
  intros (t & Ht & _ & Hline)%elem_of_get_required_imports.
  repeat (apply elem_of_cons in Ht as [->|Ht]);
    [| | | | |by apply elem_of_nil in Ht];
    unfold imports_of in Hline; simpl in Hline; set_unfold in Hline.
  - destruct Hline as [->| ->];
      [by exists "List" | by exists "ArrayList"].
  - destruct Hline as [->| ->]; [by exists "Map" | by exists "HashMap"].
  - destruct Hline as [->| ->]; [by exists "Set" | by exists "HashSet"].
  - subst. by exists "Arrays".
  - subst. by exists "Collections".
Qed.

Lemma required_imports_need_import_witness :
  "import java.util.HashMap;" ∈ get_required_imports "Map<K, V> m;" ∧
  ∃ java_type,
    "import java.util.HashMap;" = "import java.util." +:+ java_type +:+ ";" ∧
    needs_import java_type = true.
Proof.
  assert (H : "import java.util.HashMap;"
              ∈ get_required_imports "Map<K, V> m;").
  { vm_compute. apply elem_of_cons. by left. }
  split; [exact H|]. exact (required_imports_need_import _ _ H).
Defined.

Lemma map_agree {A B} (f g : A → B) l :
  Forall (λ x, f x = g x) l → map f l = map g l.
Proof. induction 1; simpl; congruence. Qed.

Lemma keys_agree (f g : ast.node → string) (keys : list (option ast.node)) :
  Forall (λ x, f x = g x) (omap id keys) →
  map (from_option f "None") keys = map (from_option g "None") keys.
Proof.
  induction keys as [|[k|] keys IH]; simpl; intros H; [done| |].
  - apply Forall_cons in H as [-> ?]. by rewrite IH.
  - by rewrite IH.
Qed.

Lemma common_agree n :
  common n = true → core._get_value_code n = _get_value_code n.
Proof.
  induction n as [n IH] using ast_facts.node_children_ind.
  intros [Hn Hc]%tree_facts.all_nodes_children.
  assert (Hchildren : Forall (λ c, core._get_value_code c = _get_value_code c)
                             (ast.iter_child_nodes n)).
  { rewrite Forall_forall in *. intros c Hin. by apply IH, Hc. }
  clear IH Hc.
  destruct n; simpl in Hn; try done; simpl in Hchildren.
  - destruct elts as [|e elts]; [done|].
    change (core._get_value_code (ast.List (e :: elts)))
      with ("Arrays.asList("
              +:+ join ", " (map core._get_value_code (e :: elts)) +:+ ")").
    change (_get_value_code (ast.List (e :: elts)))
      with ("Arrays.asList("
              +:+ join ", " (map _get_value_code (e :: elts)) +:+ ")").
    by rewrite (map_agree _ _ _ Hchildren).
  - destruct keys as [|k keys]; [done|].
    destruct values as [|v values]; [done|].
    apply Forall_app in Hchildren as [Hk Hv].
    change (core._get_value_code (ast.Dict (k :: keys) (v :: values)))
      with ("Map.of("
              +:+ join ", "
                    (zip_with (λ k v, k +:+ ", " +:+ v)
                       (map (from_option core._get_value_code "None")
                            (k :: keys))
                       (map core._get_value_code (v :: values)))
              +:+ ")").
    change (_get_value_code (ast.Dict (k :: keys) (v :: values)))
      with ("Map.of("
              +:+ join ", "
                    (zip_with (λ k v, k +:+ ", " +:+ v)
                       (map (from_option _get_value_code "None")
                            (k :: keys))
                       (map _get_value_code (v :: values)))
              +:+ ")").
    by rewrite (keys_agree _ _ _ Hk), (map_agree _ _ _ Hv).
  - apply Forall_cons in Hchildren as [Hl [Hr _]%Forall_cons].
    change (core._get_value_code (ast.BinOp n1 op n2))
      with ("(" +:+ core._get_value_code n1 +:+ " " +:+ core._get_binop op
              +:+ " " +:+ core._get_value_code n2 +:+ ")").
    change (_get_value_code (ast.BinOp n1 op n2))
      with ("(" +:+ _get_value_code n1 +:+ " " +:+ _get_binop op
              +:+ " " +:+ _get_value_code n2 +:+ ")").
    rewrite Hl, Hr. by destruct op.
Qed.

(** On expressions made of names, constants, the operators [+ - * / %]
    and list and dict displays that are not empty, the two renderers
    give the same text. *)
Theorem renderers_agree_on_common_expressions (n : ast.node) :
  common n = true → core._get_value_code n = _get_value_code n.
Proof. apply common_agree. Qed.

Lemma renderers_agree_on_common_expressions_witness :
  let e := ast.BinOp (ast.Name "a") ast.Mult
             (ast.List [ast.Constant (ast.CInt 1);
                        ast.Constant (ast.CStr "x")]) in
  common e = true ∧ core._get_value_code e = _get_value_code e.
Proof.
  intros e. assert (H : common e = true) by (vm_compute; reflexivity).
  split; [exact H|]. exact (renderers_agree_on_common_expressions e H).
Defined.

End mapper_extras.


(** ** Further properties of the conversion cache *)
Module optimizer_extras.
Import optimizer optimized.
Local Open Scope list_scope.

Section dict.
Context {V : Type}.
Implicit Types (d : dict.t V) (k : string) (v : V).

Lemma get_set_eq k v d : dict.get k (dict.set k v d) = Some v.
Proof.
  induction d as [|[k' v'] d IH]; simpl.
  - by rewrite String.eqb_refl.
  - destruct (String.eqb_spec k' k) as [->|Hne]; simpl.
    + by rewrite String.eqb_refl.
    + by rewrite (proj2 (String.eqb_neq _ _) Hne).
Qed.

Lemma get_set_ne k k' v d :
  k' ≠ k → dict.get k' (dict.set k v d) = dict.get k' d.
Proof.
  intros Hne. induction d as [|[k0 v0] d IH]; simpl.
  - by rewrite (proj2 (String.eqb_neq _ _) (not_eq_sym Hne)).
  - destruct (String.eqb_spec k0 k) as [->|Hk]; simpl.
    + by rewrite (proj2 (String.eqb_neq _ _) (not_eq_sym Hne)).
    + by rewrite IH.
Qed.

Lemma contains_get k d :
  dict.contains k d = true ↔ is_Some (dict.get k d).
Proof.
  unfold dict.contains. induction d as [|[k' v'] d IH]; simpl.
  - split; [done|]. by intros [? ?].
  - destruct (String.eqb k' k); simpl; [|done]. split; eauto.
Qed.

Lemma length_keys d : length (dict.keys d) = length d.
Proof. apply length_fmap. Qed.
End dict.

Section cache.
Context {float : Type}.
Variable float_eqb float_ltb : float → float → bool.
Variable float_zero : float.
Variable md5_hexdigest : string → string.

Local Abbreviation CacheEntry := (@CacheEntry float).
Local Abbreviation ConversionCache := (@ConversionCache float).
Local Abbreviation tuple_lt := (tuple_lt float_eqb float_ltb).
Local Abbreviation min_from := (min_from float_eqb float_ltb).
Local Abbreviation put := (put float_eqb float_ltb float_zero md5_hexdigest).
Local Abbreviation get := (get md5_hexdigest).
Local Abbreviation _evict_oldest := (_evict_oldest float_eqb float_ltb).

Local Abbreviation new_entry := (new_entry float_zero md5_hexdigest).

Lemma put_cache (self self' : ConversionCache) code converted_code now :
  put self code converted_code now = Ok self' →
  ∃ d, cache self'
       = dict.set (md5_hexdigest code) (new_entry code converted_code now) d.
Proof.
  unfold optimizer.put. destruct (_ && _).
  - destruct (_evict_oldest self) as [s1|]; simpl; [|done].
    intros [= <-]. by eexists.
  - simpl. intros [= <-]. by eexists.
Qed.

(** What [put] files, [get] returns: the invariant of the cache makes
    [put] return, and a [get] of the same text then gives the text that
    was put. *)
Theorem get_after_put (self : ConversionCache)
    (code converted_code : string) (now now' : float) :
  cache_ok self →
  ∃ self', put self code converted_code now = Ok self' ∧
           (get self' code now').1 = Some converted_code.
Proof.
  intros Hok.
  destruct (optimizer_claims.put_ok float_eqb float_ltb float_zero
              md5_hexdigest self code converted_code now Hok)
    as (self' & E & _).
  exists self'. split; [done|].
  apply put_cache in E as [d Hd]. unfold optimizer.get, _get_code_hash.
  by rewrite Hd, get_set_eq.
Qed.

(** A [put] of a text whose hash is in the cache evicts nothing: the
    keys and their order stay, the entry of the text is replaced by a
    new one, and the entries of the other keys are the same. *)
Theorem put_present_key (self : ConversionCache)
    (code converted_code : string) (now : float) :
  dict.contains (md5_hexdigest code) (cache self) = true →
  ∃ self', put self code converted_code now = Ok self' ∧
           dict.keys (cache self') = dict.keys (cache self) ∧
           dict.get (md5_hexdigest code) (cache self')
           = Some (new_entry code converted_code now) ∧
           ∀ k, k ≠ md5_hexdigest code →
                dict.get k (cache self') = dict.get k (cache self).
Proof.
  intros Hin. unfold optimizer.put, _get_code_hash. rewrite Hin.
  rewrite andb_false_r. simpl. eexists. split; [reflexivity|]. simpl.
  split; [by rewrite dict_facts.set_keys, Hin|].
  split; [apply get_set_eq|]. intros k Hk. by apply get_set_ne.
Qed.

Lemma _evict_oldest_length (self self' : ConversionCache) :
  _evict_oldest self = Ok self' →
  length (cache self') = pred (length (cache self)).
Proof.
  unfold optimizer._evict_oldest.
  destruct (dict.values (cache self)) as [|e0 rest] eqn:E.
  - intros [= <-]. by destruct (cache self).
  - destruct (dict.del _ _) as [d'|] eqn:Hdel; simpl; [|done].
    intros [= <-]. simpl.
    apply dict_facts.del_inv in Hdel as (d1 & v & d2 & -> & ->).
    rewrite !length_app. simpl. lia.
Qed.

(** [put] keeps the cache within its capacity, a capacity below one
    counting as one. *)
Theorem put_within_capacity (self : ConversionCache)
    (code converted_code : string) (now : float) :
  cache_ok self →
  Z.of_nat (length (cache self)) ≤ Z.max 1 (max_size self) →
  ∃ self', put self code converted_code now = Ok self' ∧
           max_size self' = max_size self ∧
           Z.of_nat (length (cache self')) ≤ Z.max 1 (max_size self).
Proof.
  intros Hok Hlen.
  destruct (optimizer_claims.put_ok float_eqb float_ltb float_zero
              md5_hexdigest self code converted_code now Hok)
    as (self' & E & _).
  exists self'. split; [done|]. revert E.
  unfold optimizer.put, _get_code_hash.
  destruct (dict.contains _ (cache self)) eqn:Hin.
  - rewrite andb_false_r. simpl. intros [= <-]. simpl. split; [done|].
    by rewrite <- length_keys, dict_facts.set_keys, Hin, length_keys.
  - rewrite andb_true_r. destruct (Z.leb_spec (max_size self)
                                     (Z.of_nat (length (cache self)))).
    + destruct (_evict_oldest self) as [s1|] eqn:E1; simpl; [|done].
      intros [= <-]. simpl.
      assert (Hm : max_size s1 = max_size self).
      { revert E1. unfold optimizer._evict_oldest.
        destruct (dict.values _); [by intros [= <-]|].
        destruct (dict.del _ _); simpl; [|done]. by intros [= <-]. }
      split; [done|].
      assert (Hnew : dict.contains (md5_hexdigest code) (cache s1) = false).
      { revert E1. unfold optimizer._evict_oldest.
        destruct (dict.values _); [by intros [= <-]|].
        destruct (dict.del _ _) as [d'|] eqn:Hdel; simpl; [|done].
        intros [= <-]. simpl.
        apply dict_facts.del_inv in Hdel as (d1 & v & d2 & Hd & ->).
        apply dict_facts.contains_false. apply dict_facts.contains_false in Hin.
        rewrite Hd in Hin. unfold dict.keys in *.
        rewrite fmap_app, fmap_cons, not_elem_of_app, not_elem_of_cons in Hin.
        rewrite fmap_app, not_elem_of_app. tauto. }
      apply _evict_oldest_length in E1.
      rewrite <- length_keys, dict_facts.set_keys, Hnew, length_app,
        length_keys, E1. simpl. lia.
    + simpl. intros [= <-]. simpl. split; [done|].
      rewrite <- length_keys, dict_facts.set_keys, Hin, length_app,
        length_keys. simpl. lia.
Qed.

Lemma min_from_ties first rest :
  Forall (λ e, tuple_lt (evict_key e) (evict_key first) = false) rest →
  min_from first rest = first.
Proof.
  induction 1 as [|e rest He _ IH]; simpl; [done|]. by rewrite He.
Qed.

(** When no entry has a key below that of the entry that was filed
    first, a [put] that evicts takes this first entry: among entries
    that were never read the oldest goes. *)
Theorem put_evicts_first_on_ties (self : ConversionCache) k0 e0 rest
    (code converted_code : string) (now : float) :
  cache self = (k0, e0) :: rest →
  code_hash e0 = k0 →
  Forall (λ e, tuple_lt (evict_key e) (evict_key e0) = false)
         (dict.values rest) →
  max_size self ≤ Z.of_nat (length (cache self)) →
  dict.contains (md5_hexdigest code) (cache self) = false →
  put self code converted_code now
  = Ok (set_cache self
          (rest ++ [(md5_hexdigest code,
                     new_entry code converted_code now)])).
Proof.
  intros Hcache Hk Hties Hfull Hnew.
  unfold optimizer.put, _get_code_hash.
  rewrite Hnew, (proj2 (Z.leb_le _ _) Hfull). simpl andb. cbv iota.
  unfold optimizer._evict_oldest. rewrite Hcache.
  change (dict.values ((k0, e0) :: rest)) with (e0 :: dict.values rest).
  cbv iota. rewrite min_from_ties by done. rewrite Hk. simpl.
  rewrite String.eqb_refl. simpl.
  rewrite dict_facts.set_fresh; [done|].
  apply dict_facts.contains_false in Hnew. rewrite Hcache in Hnew.
  unfold dict.keys in *. rewrite fmap_cons, not_elem_of_cons in Hnew.
  tauto.
Qed.

(** [get] changes neither the keys nor their order nor the entry of
    any other text; it returns the text filed under the hash, if there
    is one, and [None] with the cache as it was otherwise. *)
Theorem get_keeps_other_entries (self : ConversionCache)
    (code : string) (now : float) :
  let '(found, self') := get self code now in
  found = converted_code <$> dict.get (md5_hexdigest code) (cache self) ∧
  dict.keys (cache self') = dict.keys (cache self) ∧
  (∀ k, k ≠ md5_hexdigest code →
        dict.get k (cache self') = dict.get k (cache self)) ∧
  (found = None → self' = self).
Proof.
  unfold optimizer.get, _get_code_hash.
  destruct (dict.get _ _) as [e|] eqn:E; [|done]. simpl.
  split; [done|]. split; [|split; [|done]].
  - rewrite dict_facts.set_keys.
    by rewrite (proj2 (contains_get _ _)) by (by rewrite E).
  - intros k Hk. by apply get_set_ne.
Qed.

End cache.

Lemma sample_cache_ok : cache_ok sample_cache.
Proof.
  split; [|repeat constructor].
  apply (bool_decide_unpack _). vm_compute. exact I.
Qed.

Lemma get_after_put_witness :
  ∃ self', put Z.eqb Z.ltb 0 id sample_cache "h3" "int c = 3;" 7 = Ok self' ∧
           (get id self' "h3" 8).1 = Some "int c = 3;".
Proof. apply (get_after_put Z.eqb Z.ltb 0 id), sample_cache_ok. Defined.

Lemma put_present_key_witness :
  ∃ self', put Z.eqb Z.ltb 0 id sample_cache "h1" "int a = 0;" 7 = Ok self' ∧
           dict.keys (cache self') = dict.keys (cache sample_cache) ∧
           dict.get "h1" (cache self')
           = Some (new_entry 0 id "h1" "int a = 0;" 7) ∧
           ∀ k, k ≠ "h1" →
                dict.get k (cache self') = dict.get k (cache sample_cache).
Proof.
  apply (put_present_key Z.eqb Z.ltb 0 id sample_cache "h1").
  reflexivity.
Defined.

Lemma put_within_capacity_witness :
  ∃ self', put Z.eqb Z.ltb 0 id sample_cache "h3" "int c = 3;" 7 = Ok self' ∧
           max_size self' = 2 ∧
           Z.of_nat (length (cache self')) ≤ Z.max 1 2.
Proof.
  apply (put_within_capacity Z.eqb Z.ltb 0 id sample_cache).
  - apply sample_cache_ok.
  - vm_compute. discriminate.
Defined.

(** Two entries that were never read: the one filed first goes. *)
Lemma put_evicts_first_on_ties_witness :
  let e1 := new_entry 0 id "h1" "int a = 1;" 1 in
  let e2 := new_entry 0 id "h2" "int b = 2;" 2 in
  let self := {| max_size := 2; cache_file := None;
                 cache := [("h1", e1); ("h2", e2)] |} in
  put Z.eqb Z.ltb 0 id self "h3" "int c = 3;" 7
  = Ok (set_cache self
          [("h2", e2); ("h3", new_entry 0 id "h3" "int c = 3;" 7)]).
Proof.
  intros e1 e2 self.
  apply (put_evicts_first_on_ties Z.eqb Z.ltb 0 id self "h1" e1 [("h2", e2)]).
  - reflexivity.
  - reflexivity.
  - repeat constructor.
  - vm_compute. discriminate.
  - reflexivity.
Defined.

Section converter.
Context {float : Type}.
Variable float_eqb float_ltb : float → float → bool.
Variable float_zero : float.
Variable md5_hexdigest : string → string.
Variable re_sub : string → string → string → string.
Variable basic_converter enhanced_converter : string → result string.

Local Abbreviation OptimizedConverter := (@OptimizedConverter float).
Local Abbreviation convert :=
  (convert float_eqb float_ltb float_zero md5_hexdigest re_sub
           basic_converter enhanced_converter).
Local Abbreviation get := (get md5_hexdigest).

Lemma get_found (c : @ConversionCache float) code now e :
  dict.get (md5_hexdigest code) (cache c) = Some e →
  (get c code now).1 = Some (converted_code e) ∧
  ∃ e', dict.get (md5_hexdigest code) (cache (get c code now).2) = Some e' ∧
        converted_code e' = converted_code e.
Proof.
  intros E. unfold optimizer.get, _get_code_hash. rewrite E. simpl.
  split; [done|]. eexists. by rewrite get_set_eq.
Qed.

Lemma convert_hit (self : OptimizedConverter) c e code ue opt ng np :
  cache_of self = Some c →
  dict.get (md5_hexdigest code) (cache c) = Some e →
  converted_code e ≠ EmptyString →
  convert self code ue opt ng np
  = (Ok (converted_code e),
     {| cache_of := Some (get c code ng).2;
        monitor := record_cache_hit (monitor self) |}).
Proof.
  intros Hc He Hne. unfold optimized.convert. rewrite Hc.
  destruct (get_found c code ng e He) as [Hfound _].
  destruct (get c code ng) as [found c']. simpl in *. subst found.
  by destruct (converted_code e).
Qed.

(** After a call that returned a text that is not empty, with the
    cache enabled, every further call for the same source text returns
    that text, also when it asks for the other variant. *)
Theorem convert_twice (self self' : OptimizedConverter) c
    (code r : string) (ue opt ue' opt' : bool) (ng np ng' np' : float) :
  cache_of self = Some c →
  convert self code ue opt ng np = (Ok r, self') →
  r ≠ EmptyString →
  (convert self' code ue' opt' ng' np').1 = Ok r.
Proof.
  intros Hc Hconv Hr.
  assert (Hfiled : ∃ c' e', cache_of self' = Some c' ∧
            dict.get (md5_hexdigest code) (cache c') = Some e' ∧
            converted_code e' = r).
  { revert Hconv. unfold optimized.convert. rewrite Hc.
    destruct (get c code ng) as [found c1] eqn:Hget.
    assert (Hmiss :
      match (if ue then enhanced_converter code else basic_converter code)
      with
      | Raise e => (Raise e, {| cache_of := Some c1;
                                monitor := record_cache_miss (monitor self) |})
      | Ok converted_code =>
          let converted_code :=
            if opt then optimize re_sub converted_code None
            else converted_code in
          match put float_eqb float_ltb float_zero md5_hexdigest
                    c1 code converted_code np with
          | Ok cache =>
              (Ok converted_code,
               {| cache_of := Some cache;
                  monitor := record_cache_miss (monitor self) |})
          | Raise e =>
              (Raise e, {| cache_of := Some c1;
                           monitor := record_cache_miss (monitor self) |})
          end
      end = (Ok r, self') →
      ∃ c' e', cache_of self' = Some c' ∧
               dict.get (md5_hexdigest code) (cache c') = Some e' ∧
               converted_code e' = r).
    { destruct (if ue then _ else _) as [conv|]; [|done]. simpl.
      destruct (put _ _ _ _ c1 code _ np) as [c2|] eqn:Hput; [|done].
      intros [= <- <-]. exists c2. simpl.
      destruct (put_cache _ _ _ _ _ _ _ _ _ Hput) as [d0 Hd].
      eexists. split; [done|]. rewrite Hd, get_set_eq. by split. }
    destruct found as [[|ch s]|]; [exact Hmiss| |exact Hmiss].
    intros [= <- <-]. simpl.
    destruct (dict.get (md5_hexdigest code) (cache c)) as [e|] eqn:E.
    - destruct (get_found c code ng e E) as [Hf (e' & He' & Heq)].
      rewrite Hget in Hf, He'. simpl in Hf, He'.
      exists c1, e'. split; [done|]. split; [done|]. congruence.
    - unfold optimizer.get, _get_code_hash in Hget.
      rewrite E in Hget. done. }
  destruct Hfiled as (c' & e' & Hc' & He' & <-).
  by rewrite (convert_hit self' c' e' code ue' opt' ng' np' Hc' He' Hr).
Qed.

(** Every call counts once, as a hit or as a miss; it counts as a hit
    only when the cache holds for the text a text that is not empty. *)
Theorem convert_counts_once (self : OptimizedConverter)
    (code : string) (ue opt : bool) (ng np : float) :
  let m := monitor self in
  let m' := monitor (convert self code ue opt ng np).2 in
  cache_hits m' + cache_misses m' = cache_hits m + cache_misses m + 1 ∧
  (cache_hits m' = cache_hits m + 1 ↔
   ∃ c e, cache_of self = Some c ∧
          dict.get (md5_hexdigest code) (cache c) = Some e ∧
          converted_code e ≠ EmptyString).
Proof.
  simpl. unfold optimized.convert.
  assert (Hmiss : ∀ cache0 : option (@ConversionCache float),
    let m' := monitor
      (match (if ue then enhanced_converter code else basic_converter code)
       with
       | Raise e => (Raise e, {| cache_of := cache0;
                                 monitor := record_cache_miss (monitor self) |})
       | Ok converted_code =>
           let converted_code :=
             if opt then optimize re_sub converted_code None
             else converted_code in
           match cache0 with
           | Some cache =>
               match put float_eqb float_ltb float_zero md5_hexdigest
                         cache code converted_code np with
               | Ok cache =>
                   (Ok converted_code,
                    {| cache_of := Some cache;
                       monitor := record_cache_miss (monitor self) |})
               | Raise e =>
                   (Raise e, {| cache_of := Some cache;
                                monitor := record_cache_miss (monitor self) |})
               end
           | None =>
               (Ok converted_code,
                {| cache_of := None;
                   monitor := record_cache_miss (monitor self) |})
           end
       end).2 in
    cache_hits m' = cache_hits (monitor self) ∧
    cache_misses m' = cache_misses (monitor self) + 1).
  { intros cache0. destruct (if ue then _ else _); [|done].
    destruct cache0; [|done]. simpl. by destruct (put _ _ _ _ _ _ _ _). }
  destruct (cache_of self) as [c|] eqn:Hc.
  - unfold optimizer.get, _get_code_hash.
    destruct (dict.get (md5_hexdigest code) (cache c)) as [e|] eqn:E.
    + simpl. destruct (converted_code e) as [|ch s] eqn:Htext.
      * destruct (Hmiss (Some (set_cache c (dict.set (md5_hexdigest code)
          {| code_hash := code_hash e; converted_code := converted_code e;
             timestamp := timestamp e; access_count := access_count e + 1;
             last_accessed := ng |} (cache c))))) as [Hh Hm].
        rewrite Htext in *. simpl in *. rewrite Hh, Hm.
        split; [lia|]. split; [lia|].
        intros (c0 & e0 & [= <-] & He0 & Hne). congruence.
      * simpl. split; [lia|]. split; [|done]. intros _.
        exists c, e. rewrite Htext. by repeat split.
    + destruct (Hmiss (Some c)) as [Hh Hm]. simpl in *. rewrite Hh, Hm.
      split; [lia|]. split; [lia|].
      intros (c0 & e0 & [= <-] & He0 & _). congruence.
  - destruct (Hmiss None) as [Hh Hm]. simpl in *. rewrite Hh, Hm.
    split; [lia|]. split; [lia|]. by intros (c0 & e0 & ? & _).
Qed.

(** The invariant of the cache (every key once, every entry under its
    own hash) holds for a new cache and is kept by [get] and by [put],
    and [put] on such a cache does not raise. *)
Theorem cache_ok_invariant (self : @ConversionCache float)
    (code converted_code : string) (now : float) (m : Z) :
  cache_ok (float := float) (optimizer.__init__ m) ∧
  (cache_ok self →
   cache_ok (get self code now).2 ∧
   ∃ self', put float_eqb float_ltb float_zero md5_hexdigest
                self code converted_code now = Ok self' ∧
            cache_ok self').
Proof.
  split; [apply optimizer_claims.cache_ok_init|]. intros Hok. split.
  - by apply optimizer_claims.get_ok.
  - by apply optimizer_claims.put_ok.
Qed.

(** On a converter whose cache has the invariant, [convert] leaves a
    cache that has it, and it raises exactly when the text is not
    served from the cache and the converter raises, with the exception
    of the converter: the eviction inside [put] does not fail. *)
Theorem convert_keeps_cache_ok (self : OptimizedConverter) c
    (code : string) (ue opt : bool) (ng np : float) :
  cache_of self = Some c →
  cache_ok c →
  (∃ c', cache_of (convert self code ue opt ng np).2 = Some c' ∧
         cache_ok c') ∧
  (∀ e, (convert self code ue opt ng np).1 = Raise e ↔
        (∀ e0, dict.get (md5_hexdigest code) (cache c) = Some e0 →
               converted_code e0 = EmptyString) ∧
        (if ue then enhanced_converter code else basic_converter code)
        = Raise e).
Proof.
  intros Hc Hok. unfold optimized.convert. rewrite Hc.
  pose proof (optimizer_claims.get_ok md5_hexdigest c code ng Hok) as Hok1.
  assert (Hmiss : ∀ c1 : @ConversionCache float, cache_ok c1 →
    let r :=
      match (if ue then enhanced_converter code else basic_converter code)
      with
      | Raise e => (Raise e, {| cache_of := Some c1;
                                monitor := record_cache_miss (monitor self) |})
      | Ok converted_code =>
          let converted_code :=
            if opt then optimize re_sub converted_code None
            else converted_code in
          match put float_eqb float_ltb float_zero md5_hexdigest
                    c1 code converted_code np with
          | Ok cache =>
              (Ok converted_code,
               {| cache_of := Some cache;
                  monitor := record_cache_miss (monitor self) |})
          | Raise e =>
              (Raise e, {| cache_of := Some c1;
                           monitor := record_cache_miss (monitor self) |})
          end
      end in
    (∃ c', cache_of r.2 = Some c' ∧ cache_ok c') ∧
    (∀ e, r.1 = Raise e ↔
          (if ue then enhanced_converter code else basic_converter code)
          = Raise e)).
  { intros c1 Hc1. destruct (if ue then _ else _) as [conv|e0]; simpl.
    - destruct (optimizer_claims.put_ok float_eqb float_ltb float_zero
                  md5_hexdigest c1 code
                  (if opt then optimize re_sub conv None else conv) np Hc1)
        as (c2 & -> & Hok2).
      simpl. split; [by exists c2|]. by intros e.
    - split; [by exists c1|]. by intros e. }
  unfold optimizer.get, _get_code_hash in *.
  destruct (dict.get (md5_hexdigest code) (cache c)) as [e0|] eqn:E.
  - simpl in Hok1. simpl. destruct (converted_code e0) as [|ch s] eqn:Htext.
    + destruct (Hmiss _ Hok1) as [H1 H2].
      split; [exact H1|]. intros e. split.
      * intros H. split; [|by apply H2]. intros e1 [= <-]. done.
      * intros [_ H]. by apply H2.
    + simpl. split; [by eexists|]. intros e. split; [done|].
      intros [Hno _]. specialize (Hno e0 eq_refl). congruence.
  - destruct (Hmiss _ Hok) as [H1 H2].
    split; [exact H1|]. intros e. split.
    * intros H. split; [done|]. by apply H2.
    * intros [_ H]. by apply H2.
Qed.

Lemma optimize_step_noop (code name : string) :
  name ≠ "remove_redundant_parentheses" →
  match dict.get name (optimization_rules re_sub) with
  | Some rule =>
      match rule code with
      | Ok code' => code'
      | Raise _ => code
      end
  | None => code
  end = code.
Proof.
  intros Hname. unfold optimization_rules. cbn [dict.get].
  destruct (String.eqb_spec "remove_redundant_parentheses" name);
    [congruence|].
  repeat (destruct (String.eqb _ name); [done|]). done.
Qed.

Lemma optimize_fold_noop (rules : list string) (code : string) :
  Forall (λ name, name ≠ "remove_redundant_parentheses") rules →
  foldl (λ optimized_code rule_name,
           match dict.get rule_name (optimization_rules re_sub) with
           | Some rule =>
               match rule optimized_code with
               | Ok code' => code'
               | Raise _ => optimized_code
               end
           | None => optimized_code
           end) code rules = code.
Proof.
  induction 1 as [|name l Hname _ IH]; [done|].
  cbn [foldl]. by rewrite optimize_step_noop.
Qed.

(** [optimize] with a list of rules that does not name the rule for
    parentheses returns the text as it is, whatever names the list
    holds; but with the empty list it applies that rule, as it does
    without a list: the two substitutions, and nothing else. *)
Theorem optimize_without_parentheses_rule (code : string)
    (rules : list string) :
  Forall (λ name, name ≠ "remove_redundant_parentheses") rules →
  optimize re_sub code (Some rules)
  = match rules with
    | [] => optimize re_sub code None
    | _ => code
    end ∧
  optimize re_sub code None
  = re_sub "\(\(([^()]*)\)\)" "(\1)"
      (re_sub "\(\(([^()]+)\)\)" "(\1)" code).
Proof.
  intros Hrules. split; [|done].
  unfold optimize. destruct rules as [|r rules]; [done|].
  by apply optimize_fold_noop.
Qed.

End converter.

(** The second call asks for the enhanced variant, which raises for every
    text, and still returns the text of the first call. *)
Lemma convert_twice_witness :
  let self := __init__ true 2 in
  let convert := convert Z.eqb Z.ltb 0 id sample_re_sub sample_basic
                         sample_enhanced in
  let self' := (convert self "x = 3" false true 9 9).2 in
  (convert self' "x = 3" true false 10 11).1 = Ok "int c = 3;".
Proof.
  intros self convert self'.
  apply (convert_twice Z.eqb Z.ltb 0 id sample_re_sub sample_basic
           sample_enhanced self self' (optimizer.__init__ 2)
           "x = 3" "int c = 3;" false true true false 9 9 10 11).
  - reflexivity.
  - reflexivity.
  - discriminate.
Defined.

Lemma convert_keeps_cache_ok_witness :
  let r := convert Z.eqb Z.ltb 0 id sample_re_sub sample_basic
             sample_enhanced sample_converter "x = 3" true true 9 9 in
  (∃ c', cache_of r.2 = Some c' ∧ cache_ok c') ∧
  (∀ e, r.1 = Raise e ↔
        (∀ e0, dict.get "x = 3" (cache sample_cache) = Some e0 →
               converted_code e0 = EmptyString) ∧
        sample_enhanced "x = 3" = Raise e).
Proof.
  intros r.
  apply (convert_keeps_cache_ok Z.eqb Z.ltb 0 id sample_re_sub sample_basic
           sample_enhanced sample_converter sample_cache "x = 3"
           true true 9 9).
  - reflexivity.
  - apply sample_cache_ok.
Defined.

Lemma cache_ok_invariant_witness :
  cache_ok (get id sample_cache "h1" 9).2 ∧
  ∃ self', put Z.eqb Z.ltb 0 id sample_cache "h1" "int c = 3;" 9 = Ok self' ∧
           cache_ok self'.
Proof.
  apply (proj2 (cache_ok_invariant Z.eqb Z.ltb 0 id sample_cache
                  "h1" "int c = 3;" 9 2)).
  apply sample_cache_ok.
Defined.

Lemma optimize_without_parentheses_rule_witness :
  optimize sample_re_sub "(a + b)" (Some ["simplify_expressions"; "no_rule"])
  = "(a + b)".
Proof.
  apply (optimize_without_parentheses_rule sample_re_sub "(a + b)"
           ["simplify_expressions"; "no_rule"]).
  repeat constructor; discriminate.
Defined.

End optimizer_extras.
